(** * webextensions-jsdom: a model of [src/index.js]

    The harness reads a WebExtension manifest, builds one simulated DOM per
    declared page, stubs [window.browser] and glues the popup's
    [runtime.sendMessage] to the background's [runtime.onMessage] listeners.

    The code is orchestration over mutable objects, so the model is a small
    state-and-exception monad over an explicit store:
    - user supplied JavaScript objects (the [options] argument and what it
      refers to) live in a heap of property maps, addressed by reference, so
      that aliasing and in-place mutation are visible;
    - browser stubs and DOMs are allocated in their own tables and are
      referred to by index, as the code refers to them by object identity;
    - everything the code asks of the outside world (file system, JSON
      parser, [path], jsdom, the coverage instrumenter of [./nyc], user
      callbacks) is an oracle of a [World]; each such call is recorded in a
      trace of events.

    What is outside the model: the bodies of user callbacks and of the
    scripts evaluated in a window (a call or an evaluation is recorded, and
    returns or throws as the world says), getters, proxies and prototype
    chains of the objects passed in, and the virtual console. *)

From Stdlib Require Import ZArith Ascii.
From stdpp Require Import gmap strings list.

Local Open Scope string_scope.
Local Open Scope list_scope.
Local Open Scope nat_scope.

(** ** JavaScript values *)

(** Values that may sit in the [options] argument. Objects, arrays and
    functions are all references into the heap ([typeof] tells them apart).
    Numbers are integers here: the only thing the code asks of a number is
    whether it is truthy. *)
Inductive value :=
| VUndefined
| VNull
| VBool (b : bool)
| VNum (n : Z)
| VStr (s : string)
| VRef (l : nat).

#[global] Instance value_eq_dec : EqDecision value.
Proof. solve_decision. Defined.

(** A heap object: its own properties and, for a function, the identity of
    its body. *)
Record Obj := mkObj {
  props : gmap string value;
  callable : option nat
}.

Definition empty_object : Obj := mkObj ∅ None.

Inductive jstype :=
| TUndefined | TObject | TBoolean | TNumber | TString | TFunction.

#[global] Instance jstype_eq_dec : EqDecision jstype.
Proof. solve_decision. Defined.

(** [typeof v] *)
Definition typeof (h : list Obj) (v : value) : jstype :=
  match v with
  | VUndefined => TUndefined
  | VNull => TObject
  | VBool _ => TBoolean
  | VNum _ => TNumber
  | VStr _ => TString
  | VRef l =>
      match h !! l with
      | Some o => match callable o with Some _ => TFunction | None => TObject end
      | None => TObject
      end
  end.

(** JavaScript truthiness, as used by [if (v)], [v && w] and [v || w]. *)
Definition truthy (v : value) : bool :=
  match v with
  | VUndefined | VNull => false
  | VBool b => b
  | VNum n => negb (n =? 0)%Z
  | VStr s => negb (String.eqb s "")
  | VRef _ => true
  end.

(** What [JSON.parse] returns: the manifest is only read, never written. *)
#[warnings="-register-all"]
Inductive json :=
| JNull
| JBool (b : bool)
| JNum (n : Z)
| JStr (s : string)
| JArr (items : list json)
| JObj (fields : list (string * json)).

Definition json_truthy (j : json) : bool :=
  match j with
  | JNull => false
  | JBool b => b
  | JNum n => negb (n =? 0)%Z
  | JStr s => negb (String.eqb s "")
  | JArr _ | JObj _ => true
  end.

(** A property read that yielded [undefined] is [None]. *)
Definition ojson_truthy (o : option json) : bool :=
  match o with
  | Some j => json_truthy j
  | None => false
  end.

Fixpoint assoc_lookup (k : string) (fields : list (string * json)) : option json :=
  match fields with
  | [] => None
  | (k', j) :: rest => if decide (k = k') then Some j else assoc_lookup k rest
  end.

(** ** Errors and outcomes *)

Inductive type_error :=
| CannotReadProperty (key : string)   (* property access on undefined or null *)
| NotIterable                         (* [for (... of v)] on a non-iterable *)
| NotAFunction                        (* call of a non-callable value *)
| PathArgument.                       (* a path function given a non-string *)

Inductive error :=
| TypeError (e : type_error)
| SyntaxError                         (* JSON.parse *)
| FileError (path : string)           (* the file cannot be read *)
| InstrumentError (src : string)      (* the instrumenter rejected *)
| EvalError (code : string)           (* window.eval threw *)
| YieldError                          (* sinon: yield on a stub without callbacks *)
| CallbackError (fn : nat).           (* a user callback threw or rejected *)

Inductive outcome (A : Type) :=
| Resolved (a : A)
| Rejected (e : error).
Arguments Resolved {A} a.
Arguments Rejected {A} e.

(** ** The store *)

(** The closure installed by [sendMessage.callsFake] in [buildPopup]; it is
    the only fake behaviour this code ever installs. *)
Inductive Fake := ForwardToBackground.

(** A listener passed to [runtime.onMessage.addListener]: user code, applied
    to the argument list of the message. *)
Definition Listener := list value → value.

(** A browser stub made by [createBrowser]. *)
Record Browser := mkBrowser {
  fakeApi_applied : bool;
  contextMenus_is_menus : bool;
  sendMessage_fake : option Fake;
  onMessage_listeners : list Listener
}.

Definition new_browser : Browser := mkBrowser false false None [].

Inductive dom_source :=
| FromFile (path : string)
| FromHtml (html : string).

(** A JSDOM instance with its window. *)
Record Dom := mkDom {
  dom_source_of : dom_source;
  window_browser : option nat;
  parsed : bool;
  evaluated : list string
}.

(** [dom.window.document] of the DOM with the given index. *)
Inductive document_ref := window_document (d : nat).

#[global] Instance document_ref_eq_dec : EqDecision document_ref.
Proof. solve_decision. Defined.

(** The object stored as [webExtension.background] or [webExtension.popup]:
    [{browser, dom, document, helper?, writeCoverage}]. The coverage writer is
    a closure over [dom] and carries no data of its own. *)
Record Context := mkContext {
  ctx_browser : nat;
  ctx_dom : nat;
  ctx_document : document_ref;
  ctx_helper : bool
}.

#[global] Instance Context_eq_dec : EqDecision Context.
Proof. solve_decision. Defined.

Inductive event :=
| EReadFile (path : string)
| ECreateBrowser (b : nat)
| EFromFile (d : nat) (path : string)
| ENewJSDOM (d : nat) (html : string)
| ESetWindowBrowser (d b : nat)
| EFakeApi (b : nat)
| ECallsFake (b : nat)
| EBeforeParse (fn : nat) (d : nat)
| EParse (d : nat)
| EInstrument (src : string)
| EEval (d : nat) (code : string)
| ENextTick
| EAfterBuild (fn : nat) (c : Context)
| EYield (b : nat) (args : list value).

(** [webExtension] is [this.webExtension] of the one [WebExtensionsJSDOM]
    instance in use: an object with the optional keys ["background"] and
    ["popup"]. *)
Record State := mkState {
  heap : list Obj;
  browsers : list Browser;
  doms : list Dom;
  webExtension : gmap string Context;
  trace : list event
}.

Definition initial_state : State := mkState [] [] [] ∅ [].

(** ** The outside world *)

Record World := mkWorld {
  path_resolve : list string → string;            (* path.resolve(...) *)
  path_join : list string → string;               (* path.join(...) *)
  fs_readFileSync : string → option string;       (* None: throws *)
  JSON_parse : string → option json;              (* None: SyntaxError *)
  (* JSDOM.fromFile(path): the [src] of each script element of the
     document, in document order; None: the file cannot be loaded *)
  jsdom_fromFile : string → option (list string);
  nyc_instrument : string → option string;        (* None: rejects *)
  window_eval_ok : string → bool;                 (* false: eval throws *)
  callback_ok : nat → bool                        (* false: callback throws *)
}.

(** ** The monad *)

Definition M (A : Type) : Type := State → outcome A * State.

Definition ret {A} (a : A) : M A := fun s => (Resolved a, s).

Definition throw {A} (e : error) : M A := fun s => (Rejected e, s).

Definition bind {A B} (m : M A) (f : A → M B) : M B :=
  fun s =>
    match m s with
    | (Resolved a, s') => f a s'
    | (Rejected e, s') => (Rejected e, s')
    end.

Notation "x <- m ;; k" := (bind m (fun x => k))
  (at level 100, m at next level, right associativity).
Notation "m ;;; k" := (bind m (fun _ => k))
  (at level 100, right associativity).

Definition get_state : M State := fun s => (Resolved s, s).

(** The state after the events [evs] were recorded. *)
Definition log (s : State) (evs : list event) : State :=
  mkState (heap s) (browsers s) (doms s) (webExtension s) (trace s ++ evs).

Definition emit (e : event) : M unit :=
  fun s => (Resolved tt, log s [e]).

Definition when (b : bool) (m : M unit) : M unit :=
  if b then m else ret tt.

(** ** Primitive operations on the store *)

(** An object literal [{}]. *)
Definition alloc_object : M value :=
  fun s => (Resolved (VRef (length (heap s))),
            mkState (heap s ++ [empty_object]) (browsers s) (doms s) (webExtension s) (trace s)).

(** The value of [v.k] when [v] is not [undefined] or [null]: an own property
    of an object, and [undefined] otherwise (none of the keys the code reads is
    a built-in property of a primitive). *)
Definition own_prop (h : list Obj) (v : value) (k : string) : value :=
  match v with
  | VRef l =>
      match h !! l with
      | Some o => default VUndefined (props o !! k)
      | None => VUndefined
      end
  | _ => VUndefined
  end.

(** [v.k] *)
Definition get_prop (v : value) (k : string) : M value :=
  fun s =>
    match v with
    | VUndefined | VNull => (Rejected (TypeError (CannotReadProperty k)), s)
    | _ => (Resolved (own_prop (heap s) v k), s)
    end.

Definition set_own (k : string) (x : value) (o : Obj) : Obj :=
  mkObj (<[k := x]> (props o)) (callable o).

(** [v.k = x] outside strict mode: assignment to a property of a primitive is
    silently dropped. *)
Definition set_prop (v : value) (k : string) (x : value) : M unit :=
  fun s =>
    match v with
    | VUndefined | VNull => (Rejected (TypeError (CannotReadProperty k)), s)
    | VRef l =>
        (Resolved tt,
         mkState (alter (set_own k x) l (heap s)) (browsers s) (doms s) (webExtension s) (trace s))
    | _ => (Resolved tt, s)
    end.

(** A parameter with the default [= {}]. *)
Definition default_object (v : value) : M value :=
  match v with
  | VUndefined => alloc_object
  | _ => ret v
  end.

(** [webExtensionsApiFake.createBrowser()] *)
Definition createBrowser : M nat :=
  fun s =>
    let b := length (browsers s) in
    (Resolved b,
     mkState (heap s) (browsers s ++ [new_browser]) (doms s) (webExtension s)
             (trace s ++ [ECreateBrowser b])).

Definition update_browser (b : nat) (f : Browser → Browser) : M unit :=
  fun s => (Resolved tt,
            mkState (heap s) (alter f b (browsers s)) (doms s) (webExtension s) (trace s)).

Definition update_dom (d : nat) (f : Dom → Dom) : M unit :=
  fun s => (Resolved tt,
            mkState (heap s) (browsers s) (alter f d (doms s)) (webExtension s) (trace s)).

(** [browser.contextMenus = browser.menus] *)
Definition alias_contextMenus (b : nat) : M unit :=
  update_browser b (fun br =>
    mkBrowser (fakeApi_applied br) true (sendMessage_fake br) (onMessage_listeners br)).

(** [webExtensionsApiFake.fakeApi(browser)] *)
Definition fakeApi (b : nat) : M unit :=
  update_browser b (fun br =>
    mkBrowser true (contextMenus_is_menus br) (sendMessage_fake br) (onMessage_listeners br));;;
  emit (EFakeApi b).

(** [browser.runtime.sendMessage.callsFake(f)] *)
Definition sendMessage_callsFake (b : nat) (f : Fake) : M unit :=
  update_browser b (fun br =>
    mkBrowser (fakeApi_applied br) (contextMenus_is_menus br) (Some f) (onMessage_listeners br));;;
  emit (ECallsFake b).

(** The three ways a DOM changes: its window gets a [browser], it is
    parsed, a text is evaluated in its window. *)
Definition with_window_browser (b : nat) (dm : Dom) : Dom :=
  mkDom (dom_source_of dm) (Some b) (parsed dm) (evaluated dm).

Definition mark_parsed (dm : Dom) : Dom :=
  mkDom (dom_source_of dm) (window_browser dm) true (evaluated dm).

Definition with_evaluated (code : string) (dm : Dom) : Dom :=
  mkDom (dom_source_of dm) (window_browser dm) (parsed dm) (evaluated dm ++ [code]).

(** [window.browser = browser] *)
Definition set_window_browser (d b : nat) : M unit :=
  update_dom d (with_window_browser b);;;
  emit (ESetWindowBrowser d b).

(** [this.webExtension[k] = c] *)
Definition store_context (k : string) (c : Context) : M unit :=
  fun s => (Resolved tt,
            mkState (heap s) (browsers s) (doms s) (<[k := c]> (webExtension s)) (trace s)).

(** [this.webExtension[k]] *)
Definition stored_context (k : string) : M (option Context) :=
  fun s => (Resolved (webExtension s !! k), s).

(** [new WebExtensionsJSDOM]: a fresh instance has [webExtension = {}]. *)
Definition new_instance : M unit :=
  fun s => (Resolved tt, mkState (heap s) (browsers s) (doms s) ∅ (trace s)).

(** ** Reading the manifest *)

(** [j.k] on parsed JSON; [None] is [undefined]. None of the keys the code
    reads is a built-in property of an array, string, number or boolean. *)
Definition jget (j : json) (k : string) : M (option json) :=
  match j with
  | JNull => throw (TypeError (CannotReadProperty k))
  | JObj fields => ret (assoc_lookup k fields)
  | _ => ret None
  end.

(** [o.k] where [o] was itself read from a property. *)
Definition ojget (o : option json) (k : string) : M (option json) :=
  match o with
  | Some j => jget j k
  | None => throw (TypeError (CannotReadProperty k))
  end.

(** The values a [for (const x of j)] loop visits. *)
Definition iterate (j : json) : M (list json) :=
  match j with
  | JArr items => ret items
  | JStr s => ret (map (fun c => JStr (String c "")) (String.list_ascii_of_string s))
  | _ => throw (TypeError NotIterable)
  end.

(** The [path] functions throw on an argument that is not a string. *)
Definition path_argument (o : option json) : M string :=
  match o with
  | Some (JStr s) => ret s
  | _ => throw (TypeError PathArgument)
  end.

(** [s.replace(/^file:\/\//, '')] *)
Definition strip_file_scheme (s : string) : string :=
  if String.prefix "file://" s
  then String.substring 7 (String.length s - 7) s
  else s.

(** The separator appended after every instrumented source: [";\n;"]. *)
Definition separator : string := ";" +:+ String "010"%char ";".

Definition html_truthy (html : option string) : bool :=
  match html with
  | Some h => negb (String.eqb h "")
  | None => false
  end.

(** The html of a scripts-only background page. *)
Definition blank_page : string :=
  "<!DOCTYPE html><html><head></head><body></body></html>".

(** The options [buildDom] is given by its two callers: an object literal with
    [beforeParse] and, for a page loaded from a file, [path]. *)
Record DomOptions := mkDomOptions {
  opt_path : option string;
  opt_beforeParse : option (nat → M unit)
}.

Section Harness.

Variable W : World.

Definition readFileSync (p : string) : M string :=
  emit (EReadFile p);;;
  match fs_readFileSync W p with
  | Some content => ret content
  | None => throw (FileError p)
  end.

Definition parse (text : string) : M json :=
  match JSON_parse W text with
  | Some j => ret j
  | None => throw SyntaxError
  end.

(** The function a callable value stands for. *)
Definition callee (f : value) : M nat :=
  fun s =>
    match f with
    | VRef l =>
        match heap s !! l with
        | Some (mkObj _ (Some fn)) => (Resolved fn, s)
        | _ => (Rejected (TypeError NotAFunction), s)
        end
    | _ => (Rejected (TypeError NotAFunction), s)
    end.

(** The body of a user callback is outside the model: a call is recorded and
    either returns or throws. *)
Definition run_callback (fn : nat) : M unit :=
  if callback_ok W fn then ret tt else throw (CallbackError fn).

(** [await this.nyc.instrument(scriptSrc, 'utf-8')] *)
Definition instrument (scriptSrc : string) : M string :=
  emit (EInstrument scriptSrc);;;
  match nyc_instrument W scriptSrc with
  | Some code => ret code
  | None => throw (InstrumentError scriptSrc)
  end.

(** [dom.window.eval(code)] *)
Definition window_eval (d : nat) (code : string) : M unit :=
  emit (EEval d code);;;
  if window_eval_ok W code
  then update_dom d (with_evaluated code)
  else throw (EvalError code).

Definition nextTick : M unit := emit ENextTick.

(** The event of the creation of a DOM. *)
Definition source_event (d : nat) (src : dom_source) : event :=
  match src with
  | FromFile p => EFromFile d p
  | FromHtml h => ENewJSDOM d h
  end.

(** jsdom creates the window, hands it to [beforeParse] and then parses. *)
Definition JSDOM_construct (src : dom_source) (beforeParse : option (nat → M unit)) : M nat :=
  d <- (fun s =>
          let d := length (doms s) in
          (Resolved d,
           mkState (heap s) (browsers s) (doms s ++ [mkDom src None false []])
                   (webExtension s)
                   (trace s ++ [source_event d src])));;
  match beforeParse with
  | Some f => f d
  | None => ret tt
  end;;;
  update_dom d mark_parsed;;;
  emit (EParse d);;;
  ret d.

(** The two loops of [buildDom] have the same body:
    [scriptSrcs += await instrument(src.replace(...)); scriptSrcs += ";\n;"]. *)
Fixpoint instrument_scripts (srcs : list string) (scriptSrcs : string) : M string :=
  match srcs with
  | [] => ret scriptSrcs
  | src :: rest =>
      let scriptSrc := strip_file_scheme src in
      code <- instrument scriptSrc;;
      instrument_scripts rest ((scriptSrcs +:+ code) +:+ separator)
  end.

(** [async buildDom(options = {}, html = false, scripts = false)] *)
Definition buildDom (options : DomOptions) (html : option string)
    (scripts : option (list string)) : M nat :=
  if negb (html_truthy html) then
    match opt_path options with
    | None => throw (TypeError PathArgument)
    | Some p =>
        match jsdom_fromFile W p with
        | None => throw (FileError p)
        | Some srcs =>
            d <- JSDOM_construct (FromFile p) (opt_beforeParse options);;
            scriptSrcs <- instrument_scripts srcs "";;
            window_eval d scriptSrcs;;;
            nextTick;;;
            ret d
        end
    end
  else
    d <- JSDOM_construct (FromHtml (default "" html)) (opt_beforeParse options);;
    match scripts with
    | None => throw (TypeError NotIterable)
    | Some srcs =>
        scriptSrcs <- instrument_scripts srcs "";;
        window_eval d scriptSrcs;;;
        nextTick;;;
        ret d
    end.

(** [if (options && options.k) { options.k(arg) }], the call being recorded by
    [record]. *)
Definition optional_callback (options : value) (k : string) (record : nat → event) : M unit :=
  if truthy options then
    f <- get_prop options k;;
    if truthy f then
      fn <- callee f;;
      emit (record fn);;;
      run_callback fn
    else ret tt
  else ret tt.

(** The [beforeParse] that [buildBackground] hands to jsdom. The code applies
    the fakes to [window.browser], which it has just set to [browser]. *)
Definition background_beforeParse (browser : nat) (options : value) (window : nat) : M unit :=
  set_window_browser window browser;;;
  apiFake <- get_prop options "apiFake";;
  (if truthy apiFake then fakeApi browser else ret tt);;;
  optional_callback options "beforeParse" (fun fn => EBeforeParse fn window).

(** The loop of [buildBackground] over [background.scripts]. *)
Fixpoint resolve_scripts (manifestPath : string) (items : list json) : M (list string) :=
  match items with
  | [] => ret []
  | script :: rest =>
      s <- path_argument (Some script);;
      let p := path_resolve W [path_join W [manifestPath; s]] in
      ps <- resolve_scripts manifestPath rest;;
      ret (p :: ps)
  end.

(** [async buildBackground(background, manifestPath, options = {})] *)
Definition buildBackground (background : json) (manifestPath : string)
    (options : value) : M Context :=
  options <- default_object options;;
  browser <- createBrowser;;
  alias_contextMenus browser;;;
  let beforeParse := background_beforeParse browser options in
  page <- jget background "page";;
  dom <- (if ojson_truthy page then
            p <- path_argument page;;
            let backgroundPath := path_resolve W [manifestPath; p] in
            d <- buildDom (mkDomOptions (Some backgroundPath) (Some beforeParse)) None None;;
            ret (Some d)
          else
            scripts <- jget background "scripts";;
            if ojson_truthy scripts then
              items <- iterate (default JNull scripts);;
              ps <- resolve_scripts manifestPath items;;
              d <- buildDom (mkDomOptions None (Some beforeParse)) (Some blank_page) (Some ps);;
              ret (Some d)
            else ret None);;
  match dom with
  | None => throw (TypeError (CannotReadProperty "window"))
  | Some d =>
      store_context "background" (mkContext browser d (window_document d) false);;;
      stored <- stored_context "background";;
      optional_callback options "afterBuild"
        (fun fn => EAfterBuild fn (default (mkContext browser d (window_document d) false) stored));;;
      stored <- stored_context "background";;
      match stored with
      | Some c => ret c
      | None => throw (TypeError (CannotReadProperty "background"))
      end
  end.

(** The [beforeParse] that [buildPopup] hands to jsdom; here too
    [window.browser] is the [browser] assigned on the line before. *)
Definition popup_beforeParse (browser : nat) (options : value) (window : nat) : M unit :=
  set_window_browser window browser;;;
  apiFake <- get_prop options "apiFake";;
  (if truthy apiFake then fakeApi browser else ret tt);;;
  background <- stored_context "background";;
  (match background with
   | Some _ => sendMessage_callsFake browser ForwardToBackground
   | None => ret tt
   end);;;
  optional_callback options "beforeParse" (fun fn => EBeforeParse fn window).

(** [async buildPopup(popupPath, options = {})] *)
Definition buildPopup (popupPath : string) (options : value) : M Context :=
  options <- default_object options;;
  browser <- createBrowser;;
  alias_contextMenus browser;;;
  d <- buildDom (mkDomOptions (Some popupPath) (Some (popup_beforeParse browser options)))
         None None;;
  store_context "popup" (mkContext browser d (window_document d) true);;;
  stored <- stored_context "popup";;
  optional_callback options "afterBuild"
    (fun fn => EAfterBuild fn (default (mkContext browser d (window_document d) true) stored));;;
  stored <- stored_context "popup";;
  match stored with
  | Some c => ret c
  | None => throw (TypeError (CannotReadProperty "popup"))
  end.

(** [typeof options.k === 'undefined' || options.k] *)
Definition option_enabled (v : value) : bool :=
  match v with
  | VUndefined => true
  | _ => truthy v
  end.

(** [manifest.background && (manifest.background.page || manifest.background.scripts)],
    evaluated left to right. *)
Definition manifest_declares_background (manifest : json) : M bool :=
  mb <- jget manifest "background";;
  if ojson_truthy mb then
    page <- ojget mb "page";;
    if ojson_truthy page then ret true
    else
      scripts <- ojget mb "scripts";;
      ret (ojson_truthy scripts)
  else ret false.

(** [manifest.browser_action && manifest.browser_action.default_popup] *)
Definition manifest_declares_popup (manifest : json) : M bool :=
  ba <- jget manifest "browser_action";;
  if ojson_truthy ba then
    dp <- ojget ba "default_popup";;
    ret (ojson_truthy dp)
  else ret false.

(** The two statements that prepare [options.k] before a build:
    [if (typeof options.k !== 'object') options.k = {};
     if (typeof options.apiFake !== 'undefined') options.k.apiFake = options.apiFake;] *)
Definition prepare_options (options : value) (k : string) : M unit :=
  ok <- get_prop options k;;
  s <- get_state;;
  (if decide (typeof (heap s) ok = TObject) then ret tt
   else
     fresh <- alloc_object;;
     set_prop options k fresh);;;
  apiFake <- get_prop options "apiFake";;
  if decide (apiFake = VUndefined) then ret tt
  else
    target <- get_prop options k;;
    apiFake <- get_prop options "apiFake";;
    set_prop target "apiFake" apiFake.

(** The first [if] statement of [fromManifest]. *)
Definition load_background (manifest : json) (manifestPath : string) (options : value)
    (webExtension : gmap string Context) : M (gmap string Context) :=
  ob <- get_prop options "background";;
  declared <- (if option_enabled ob then manifest_declares_background manifest
               else ret false);;
  if declared : bool then
    prepare_options options "background";;;
    mb <- jget manifest "background";;
    ob <- get_prop options "background";;
    c <- buildBackground (default JNull mb) manifestPath ob;;
    ret (<["background" := c]> webExtension)
  else ret webExtension.

(** The second [if] statement of [fromManifest]. *)
Definition load_popup (manifest : json) (manifestPath : string) (options : value)
    (webExtension : gmap string Context) : M (gmap string Context) :=
  op <- get_prop options "popup";;
  declared <- (if option_enabled op then manifest_declares_popup manifest
               else ret false);;
  if declared : bool then
    ba <- jget manifest "browser_action";;
    dp <- ojget ba "default_popup";;
    p <- path_argument dp;;
    let popupPath := path_resolve W [manifestPath; p] in
    prepare_options options "popup";;;
    op <- get_prop options "popup";;
    c <- buildPopup popupPath op;;
    ret (<["popup" := c]> webExtension)
  else ret webExtension.

(** [const fromManifest = async (manifestPath, options = {}) => ...] *)
Definition fromManifest (manifestPath : string) (options : value)
  : M (gmap string Context) :=
  options <- default_object options;;
  new_instance;;;
  let manifestFilePath := path_resolve W [manifestPath; "manifest.json"] in
  buffer <- readFileSync manifestFilePath;;
  manifest <- parse buffer;;
  webExtension <- load_background manifest manifestPath options ∅;;
  webExtension <- load_popup manifest manifestPath options webExtension;;
  ret webExtension.

End Harness.

(** ** Using the stubs after a build *)





(** ** A concrete world

    An extension directory [/ext] with [manifest.json], [background.html]
    (one script), [popup.html] (one script) and [sidebar.html]. *)
Module Example.

Fixpoint resolve_from (base : string) (parts : list string) : string :=
  match parts with
  | [] => base
  | p :: rest =>
      resolve_from (if String.prefix "/" p then p else base +:+ "/" +:+ p) rest
  end.

Definition resolve (parts : list string) : string := resolve_from "/cwd" parts.

Definition join (parts : list string) : string :=
  match parts with
  | [] => "."
  | p :: rest =>
      fold_left (fun acc q => if String.prefix "/" q then acc +:+ q else acc +:+ "/" +:+ q)
                rest p
  end.

Definition html_scripts (p : string) : option (list string) :=
  if String.eqb p "/ext/background.html" then Some ["file:///ext/background.js"]
  else if String.eqb p "/ext/popup.html" then Some ["file:///ext/popup.js"]
  else if String.eqb p "/ext/sidebar.html" then Some ["file:///ext/sidebar.js"]
  else None.

Definition world (manifest : json) : World :=
  mkWorld resolve join
    (fun p => if String.eqb p "/ext/manifest.json" then Some "<manifest>" else None)
    (fun text => if String.eqb text "<manifest>" then Some manifest else None)
    html_scripts
    (fun src => Some ("cov(" +:+ src +:+ ")"))
    (fun _ => true)
    (fun _ => true).

(** [{"background": {"page": "background.html"},
     "browser_action": {"default_popup": "popup.html"},
     "sidebar_action": {"default_panel": "sidebar.html"}}] *)
Definition manifest_all : json :=
  JObj [("background", JObj [("page", JStr "background.html")]);
        ("browser_action", JObj [("default_popup", JStr "popup.html")]);
        ("sidebar_action", JObj [("default_panel", JStr "sidebar.html")])].

(** [{"background": {"scripts": ["a.js", "b.js"]},
     "browser_action": {"default_popup": "popup.html"}}] *)
Definition manifest_scripts : json :=
  JObj [("background", JObj [("scripts", JArr [JStr "a.js"; JStr "b.js"])]);
        ("browser_action", JObj [("default_popup", JStr "popup.html")])].

(** A heap holding one empty options object, at reference 0. *)
Definition state_with_options (o : Obj) : State :=
  mkState [o] [] [] ∅ [].

End Example.

(** * The vocabulary of the properties

    Pure descriptions of what the code does, in which the properties below
    are stated. *)

(** The evaluated text for a list of instrumented sources: each source
    followed by the separator. *)
Definition concat_sources (codes : list string) : string :=
  foldr (fun code rest => code +:+ separator +:+ rest) "" codes.

(** [code] is what the instrumenter returns for the script [src]. *)
Definition instrumented_as (W : World) (src code : string) : Prop :=
  nyc_instrument W (strip_file_scheme src) = Some code.

(** The calls of the instrumenter for the scripts [srcs], in order. *)
Definition instrument_events (srcs : list string) : list event :=
  map (fun src => EInstrument (strip_file_scheme src)) srcs.

(** The scripts a [buildDom] call works on: those of the html file's script
    elements, or the list it was passed. *)
Definition scripts_of (W : World) (options : DomOptions) (html : option string)
    (scripts : option (list string)) : option (list string) :=
  if negb (html_truthy html)
  then p ← opt_path options; jsdom_fromFile W p
  else scripts.

(** What the DOM of a [buildDom] call is made from. *)
Definition source_of (options : DomOptions) (html : option string) : option dom_source :=
  if negb (html_truthy html)
  then FromFile <$> opt_path options
  else Some (FromHtml (default "" html)).

(** [preserves P m]: the run [m] takes a state in [P] to a state in [P],
    whatever its outcome. *)
Definition preserves (P : State → Prop) {A} (m : M A) : Prop :=
  ∀ s, P s → P (m s).2.

(** What [m] returns, when it returns, from a state in [P]. *)
Definition returns (P : State → Prop) {A} (m : M A) (Q : A → Prop) : Prop :=
  ∀ s a s', P s → m s = (Resolved a, s') → Q a.

(** A run that reads the state at most. *)
Definition reads {A} (m : M A) : Prop := ∀ s, (m s).2 = s.

(** [frame s0 k s]: every heap object, browser stub, DOM and recorded event of
    [s0] is still in place in [s], unchanged, the heap objects added since are
    empty objects, and the instance's [webExtension[k]] is what it was.
    Objects are only ever added at the end of their table, so "in place and
    unchanged" is the prefix order. *)
Record frame (s0 : State) (k : string) (s : State) : Prop := mkFrame {
  frame_heap : heap s0 `prefix_of` heap s;
  frame_plain : ∀ l o, length (heap s0) ≤ l → heap s !! l = Some o → o = empty_object;
  frame_browsers : browsers s0 `prefix_of` browsers s;
  frame_doms : doms s0 `prefix_of` doms s;
  frame_trace : trace s0 `prefix_of` trace s;
  frame_store : webExtension s !! k = webExtension s0 !! k
}.

(** The heap after the default [= {}] of a parameter was applied. *)
Definition defaulted_heap (h : list Obj) (v : value) : list Obj :=
  match v with
  | VUndefined => h ++ [empty_object]
  | _ => h
  end.

(** The value of such a parameter. *)
Definition defaulted (h : list Obj) (v : value) : value :=
  match v with
  | VUndefined => VRef (length h)
  | _ => v
  end.

(** What the two [beforeParse] closures do to the stub: apply the fakes when
    [apiFake] is truthy, and (popup only) install the forwarding when a
    background context is stored. *)
Definition installs (fake forward : bool) (br : Browser) : Browser :=
  mkBrowser (fake || fakeApi_applied br) (contextMenus_is_menus br)
            (if forward then Some ForwardToBackground else sendMessage_fake br)
            (onMessage_listeners br).

(** The stub a resolved build leaves behind. *)
Definition built_browser (fake forward : bool) : Browser :=
  mkBrowser fake true (if forward then Some ForwardToBackground else None) [].

(** The DOM a resolved build leaves behind. *)
Definition built_dom (src : dom_source) (b : nat) (code : string) : Dom :=
  mkDom src (Some b) true [code].

(** The events of a resolved build, around those of the user's callbacks
    ([before] the parse and [after] the build). *)
Definition build_events (b d : nat) (src : dom_source) (srcs codes : list string)
    (before after : list event) : list event :=
  [ECreateBrowser b; source_event d src; ESetWindowBrowser d b] ++ before
    ++ [EParse d] ++ instrument_events srcs
    ++ [EEval d (concat_sources codes); ENextTick] ++ after.

(** [j.k] as a pure function: [None] is [undefined]. *)
Definition field (j : json) (k : string) : option json :=
  match j with
  | JObj fields => assoc_lookup k fields
  | _ => None
  end.

(** The string a JSON value is, if it is one. *)
Definition json_string (j : json) : option string :=
  match j with
  | JStr s => Some s
  | _ => None
  end.

(** The values a [for ... of] loop over [j] visits, if [j] is iterable. *)
Definition iterated (j : json) : option (list json) :=
  match j with
  | JArr items => Some items
  | JStr s => Some (map (fun c => JStr (String c "")) (String.list_ascii_of_string s))
  | _ => None
  end.

(** Where a background script is looked for. *)
Definition script_path (W : World) (manifestPath script : string) : string :=
  path_resolve W [path_join W [manifestPath; script]].

(** The DOM source and the script list [buildBackground] hands to [buildDom]:
    the declared page and the scripts of its script elements, or else a blank
    page and the declared scripts. *)
Definition background_plan (W : World) (background : json) (manifestPath : string)
  : option (dom_source * list string) :=
  if ojson_truthy (field background "page") then
    p ← field background "page" ≫= json_string;
    srcs ← jsdom_fromFile W (path_resolve W [manifestPath; p]);
    Some (FromFile (path_resolve W [manifestPath; p]), srcs)
  else if ojson_truthy (field background "scripts") then
    items ← field background "scripts" ≫= iterated;
    scripts ← mapM json_string items;
    Some (FromHtml blank_page, map (script_path W manifestPath) scripts)
  else None.

(** The guards of the two [if] statements, as pure functions of the manifest:
    [manifest.background && (manifest.background.page || manifest.background.scripts)] *)
Definition declares_background (manifest : json) : bool :=
  let mb := field manifest "background" in
  ojson_truthy mb
  && (ojson_truthy (mb ≫= fun j => field j "page")
      || ojson_truthy (mb ≫= fun j => field j "scripts")).

(** [manifest.browser_action && manifest.browser_action.default_popup] *)
Definition declares_popup (manifest : json) : bool :=
  let ba := field manifest "browser_action" in
  ojson_truthy ba && ojson_truthy (ba ≫= fun j => field j "default_popup").

(** [v.k = x] on the heap. *)
Definition assign (h : list Obj) (v : value) (k : string) (x : value) : list Obj :=
  match v with
  | VRef l => alter (set_own k x) l h
  | _ => h
  end.

(** The heap after the first statement that prepares [options.k]. *)
Definition replaced_heap (h : list Obj) (options : value) (k : string) : list Obj :=
  if decide (typeof h (own_prop h options k) = TObject) then h
  else assign (h ++ [empty_object]) options k (VRef (length h)).

(** The heap after the two statements that prepare [options.k]. *)
Definition prepared_heap (h : list Obj) (options : value) (k : string) : list Obj :=
  let h1 := replaced_heap h options k in
  let apiFake := own_prop h1 options "apiFake" in
  if decide (apiFake = VUndefined) then h1
  else assign h1 (own_prop h1 options k) "apiFake" apiFake.

(** The state [s] with the heap [h]. *)
Definition with_heap (s : State) (h : list Obj) : State :=
  mkState h (browsers s) (doms s) (webExtension s) (trace s).

(** [undefined] and [null]: the values a property access throws on. *)
Definition is_nullish (v : value) : bool :=
  match v with
  | VUndefined | VNull => true
  | _ => false
  end.

(** The popup path the second phase computes. *)
Definition declared_popup (manifest : json) : option string :=
  (field manifest "browser_action" ≫= fun j => field j "default_popup") ≫= json_string.

(** The state in which the two phases start. *)
Definition started (W : World) (manifestPath : string) (options : value) (s : State) : State :=
  mkState (defaulted_heap (heap s) options) (browsers s) (doms s) ∅
          (trace s ++ [EReadFile (path_resolve W [manifestPath; "manifest.json"])]).


(** The stub of the context stored under [k] in a result. *)
Definition stub_of (s : State) (r : gmap string Context) (k : string) : option Browser :=
  c ← r !! k; browsers s !! ctx_browser c.

(** The options object [{wiring: false}]. *)
Definition options_wiring_off : Obj := mkObj {["wiring" := VBool false]} None.


(** The error of [dom.window] when [dom] is undefined. *)
Definition undefined_dom : error := TypeError (CannotReadProperty "window").

(** [m] never fails with the error [e]. *)
Definition avoids (e : error) {A} (m : M A) : Prop :=
  ∀ s, (m s).1 ≠ Rejected e.

(** The precondition of [buildBackground]: [background.page || background.scripts]. *)
Definition has_page_or_scripts (background : json) : bool :=
  ojson_truthy (field background "page") || ojson_truthy (field background "scripts").

(** A value that, if it is a reference, refers to an object of the heap. *)
Definition valid (h : list Obj) (v : value) : Prop :=
  match v with
  | VRef l => l < length h
  | _ => True
  end.

(** What [fromManifest] may have done to a heap [h] when the heap is [h'],
    for the options object at [l]: objects stay where they are and keep their
    kind; the objects added are plain and have no property but, possibly,
    [apiFake]; and a property of an old object is what it was, or it is an
    [apiFake] that received the value of [options.apiFake], or it is
    [options.background] or [options.popup], was not an object, and is now a
    new object. *)
Record options_frame (l : nat) (h h' : list Obj) : Prop := mkOptionsFrame {
  of_length : length h ≤ length h';
  of_typeof : ∀ v, valid h v → typeof h' v = typeof h v;
  of_plain : ∀ i, length h ≤ i → typeof h' (VRef i) = TObject;
  of_fresh : ∀ i key, length h ≤ i → key ≠ "apiFake" →
    own_prop h' (VRef i) key = VUndefined;
  of_props : ∀ i key, i < length h →
    own_prop h' (VRef i) key = own_prop h (VRef i) key
    ∨ (key = "apiFake"
       ∧ own_prop h (VRef l) "apiFake" ≠ VUndefined
       ∧ own_prop h' (VRef i) key = own_prop h (VRef l) "apiFake")
    ∨ (i = l ∧ (key = "background" ∨ key = "popup")
       ∧ typeof h (own_prop h (VRef l) key) ≠ TObject
       ∧ ∃ t, own_prop h' (VRef l) key = VRef t ∧ length h ≤ t)
}.

(** The heap of [s] is within what [fromManifest] may have done to [h0], for
    the options object at [l]. *)
Definition within (h0 : list Obj) (l : nat) (s : State) : Prop :=
  options_frame l h0 (heap s).

(** [options.k] is an object of the heap, and carries the value [af] of
    [options.apiFake] if that is defined. *)
Definition option_ready (af : value) (l : nat) (k : string) (h : list Obj) : Prop :=
  ∃ t, own_prop h (VRef l) k = VRef t
       ∧ t < length h
       ∧ (af ≠ VUndefined → own_prop h (VRef t) "apiFake" = af).

(** The options a caller passes: an object of the heap whose [background] and
    [popup], if they are references, refer to objects of the heap. *)
Definition options_object (h : list Obj) (l : nat) : Prop :=
  l < length h
  ∧ valid h (own_prop h (VRef l) "background")
  ∧ valid h (own_prop h (VRef l) "popup").

(** What a build has done for the context [c]: its stub did not exist before
    the build, the window of its DOM has [browser] set to that stub, the
    assignment was recorded before the DOM was parsed, and the fakes were
    applied to the stub exactly when [apiFake] is truthy. *)
Definition stubbed (s s' : State) (c : Context) (apiFake : value) : Prop :=
  browsers s !! ctx_browser c = None
  ∧ ∃ br dm pre mid post,
      browsers s' !! ctx_browser c = Some br
      ∧ doms s' !! ctx_dom c = Some dm
      ∧ window_browser dm = Some (ctx_browser c)
      ∧ trace s' = pre ++ ESetWindowBrowser (ctx_dom c) (ctx_browser c)
                     :: mid ++ EParse (ctx_dom c) :: post
      ∧ fakeApi_applied br = truthy apiFake.

(** The [apiFake] option a build sees: that of its [options] argument, after
    the default [{}]. *)
Definition apiFake_option (s : State) (options : value) : value :=
  own_prop (defaulted_heap (heap s) options) (defaulted (heap s) options) "apiFake".

(** The options object [{background: null}]. *)
Definition options_background_null : Obj := mkObj {["background" := VNull]} None.

(** The options object [{apiFake: true, background: true}]. *)
Definition options_apiFake : Obj :=
  mkObj (<["apiFake" := VBool true]> {["background" := VBool true]}) None.

(** * Properties *)

(** ** Generalities *)

Lemma string_app_assoc (a b c : string) : (a +:+ b) +:+ c = a +:+ (b +:+ c).
Proof.
  induction a as [|x a IH]; [reflexivity|].
  change (String x ((a +:+ b) +:+ c) = String x (a +:+ (b +:+ c))).
  now rewrite IH.
Qed.

Lemma string_app_nil_r (a : string) : a +:+ "" = a.
Proof.
  induction a as [|x a IH]; [reflexivity|].
  change (String x (a +:+ "") = String x a).
  now rewrite IH.
Qed.

Lemma log_nil s : log s [] = s.
Proof. destruct s; unfold log; simpl. now rewrite app_nil_r. Qed.

Lemma log_log s evs evs' : log (log s evs) evs' = log s (evs ++ evs').
Proof. unfold log; simpl. now rewrite app_assoc. Qed.

Lemma bind_resolved {A B} (m : M A) (f : A → M B) s b s' :
  bind m f s = (Resolved b, s') →
  ∃ a s1, m s = (Resolved a, s1) ∧ f a s1 = (Resolved b, s').
Proof.
  unfold bind. destruct (m s) as [[a|e] s1]; intros H; [eauto | discriminate].
Qed.

(** ** Script instrumentation in [buildDom] *)

Lemma instrument_scripts_resolved W srcs : ∀ acc s r s',
  instrument_scripts W srcs acc s = (Resolved r, s') →
  ∃ codes, Forall2 (instrumented_as W) srcs codes
           ∧ r = acc +:+ concat_sources codes
           ∧ s' = log s (instrument_events srcs).
Proof.
  induction srcs as [|src rest IH]; intros acc s r s' H.
  - inversion H; subst. exists []. split; [constructor|].
    split; [now rewrite string_app_nil_r | now rewrite log_nil].
  - simpl in H. unfold bind at 1, instrument, bind, emit in H.
    destruct (nyc_instrument W (strip_file_scheme src)) as [code|] eqn:Hc;
      [|discriminate].
    simpl in H. apply IH in H as (codes & Hall & -> & ->).
    exists (code :: codes). split; [constructor; assumption|].
    split.
    + change (concat_sources (code :: codes))
        with (code +:+ separator +:+ concat_sources codes).
      now rewrite !string_app_assoc.
    + now rewrite log_log.
Qed.

(** Whatever the outcome, the loop only records instrumentation events, for a
    prefix of the list. *)
Lemma instrument_scripts_events W srcs : ∀ acc s,
  ∃ k, (instrument_scripts W srcs acc s).2 = log s (instrument_events (take k srcs)).
Proof.
  induction srcs as [|src rest IH]; intros acc s.
  - exists 0. simpl. now rewrite log_nil.
  - simpl. unfold bind at 1, instrument, bind, emit.
    destruct (nyc_instrument W (strip_file_scheme src)) as [code|] eqn:Hc; simpl.
    + destruct (IH ((acc +:+ code) +:+ separator)
                   (log s [EInstrument (strip_file_scheme src)])) as [k Hk].
      exists (S k). rewrite Hk, log_log. reflexivity.
    + exists 1. destruct rest; reflexivity.
Qed.

(** C4. Whenever [buildDom] resolves, on the script list gathered from the
    html file or passed in, every source was instrumented, in list order,
    after the DOM was constructed and before anything was evaluated; the
    instrumented sources, each followed by [";\n;"], were concatenated and that
    text was evaluated exactly once in the window of the new DOM. *)
Theorem buildDom_instruments_then_evaluates W options html scripts s d s' :
  buildDom W options html scripts s = (Resolved d, s') →
  ∃ src srcs codes s1,
    source_of options html = Some src
    ∧ scripts_of W options html scripts = Some srcs
    ∧ JSDOM_construct src (opt_beforeParse options) s = (Resolved d, s1)
    ∧ Forall2 (instrumented_as W) srcs codes
    ∧ trace s' = trace s1 ++ instrument_events srcs
                   ++ [EEval d (concat_sources codes); ENextTick]
    ∧ doms s' = alter (fun dm => mkDom (dom_source_of dm) (window_browser dm) (parsed dm)
                                   (evaluated dm ++ [concat_sources codes])) d (doms s1).
Proof.
  unfold buildDom, scripts_of, source_of. intros H.
  destruct (negb (html_truthy html)).
  - destruct (opt_path options) as [p|]; [|discriminate]. simpl.
    destruct (jsdom_fromFile W p) as [srcs|]; [|discriminate].
    apply bind_resolved in H as (d' & s1 & Hd & H).
    apply bind_resolved in H as (code & s2 & Hi & H).
    apply instrument_scripts_resolved in Hi as (codes & Hall & -> & ->).
    unfold window_eval, nextTick, bind, emit, update_dom, ret in H.
    destruct (window_eval_ok W _); [|discriminate].
    simpl in H. inversion H; subst; clear H.
    exists (FromFile p), srcs, codes, s1. simpl.
    repeat split; try assumption. now rewrite <- !app_assoc.
  - apply bind_resolved in H as (d' & s1 & Hd & H).
    destruct scripts as [srcs|]; [|discriminate].
    apply bind_resolved in H as (code & s2 & Hi & H).
    apply instrument_scripts_resolved in Hi as (codes & Hall & -> & ->).
    unfold window_eval, nextTick, bind, emit, update_dom, ret in H.
    destruct (window_eval_ok W _); [|discriminate].
    simpl in H. inversion H; subst; clear H.
    exists (FromHtml (default "" html)), srcs, codes, s1. simpl.
    repeat split; try assumption. now rewrite <- !app_assoc.
Qed.

(** ** Invariants of a run *)

Lemma reads_preserves P {A} (m : M A) : reads m → preserves P m.
Proof. intros H s Hs. now rewrite H. Qed.

Lemma preserves_bind_returns P {A B} (m : M A) (f : A → M B) (Q : A → Prop) :
  preserves P m → returns P m Q → (∀ a, Q a → preserves P (f a)) →
  preserves P (bind m f).
Proof.
  intros Hm Hq Hf s Hs. unfold bind.
  specialize (Hm s Hs). specialize (Hq s).
  destruct (m s) as [[a|e] s1]; simpl in *; [|exact Hm].
  apply Hf; [|exact Hm]. eapply Hq; eauto.
Qed.

Lemma preserves_bind P {A B} (m : M A) (f : A → M B) :
  preserves P m → (∀ a, preserves P (f a)) → preserves P (bind m f).
Proof.
  intros Hm Hf. apply (preserves_bind_returns P m f (fun _ => True)); auto.
  intros ?; auto.
Qed.

Lemma reads_ret {A} (a : A) : reads (ret a).
Proof. intros s. reflexivity. Qed.

Lemma reads_throw {A} e : reads (@throw A e).
Proof. intros s. reflexivity. Qed.

Lemma reads_get_state : reads get_state.
Proof. intros s. reflexivity. Qed.

Lemma reads_get_prop v key : reads (get_prop v key).
Proof. intros s. unfold get_prop. now destruct v. Qed.

Lemma reads_stored_context key : reads (stored_context key).
Proof. intros s. reflexivity. Qed.

Lemma reads_jget j key : reads (jget j key).
Proof. intros s. now destruct j. Qed.

Lemma reads_ojget o key : reads (ojget o key).
Proof. destruct o; simpl; auto using reads_jget, reads_throw. Qed.

Lemma reads_iterate j : reads (iterate j).
Proof. intros s. now destruct j. Qed.

Lemma reads_path_argument o : reads (path_argument o).
Proof. intros s. now destruct o as [[]|]. Qed.

Lemma reads_callee f : reads (callee f).
Proof.
  intros s. unfold callee. destruct f; try reflexivity.
  now destruct (heap s !! l) as [[? [?|]]|].
Qed.

Lemma reads_run_callback W fn : reads (run_callback W fn).
Proof. intros s. unfold run_callback. now destruct (callback_ok W fn). Qed.

Lemma reads_parse W text : reads (parse W text).
Proof. intros s. unfold parse. now destruct (JSON_parse W text). Qed.

Lemma reads_bind {A B} (m : M A) (f : A → M B) :
  reads m → (∀ a, reads (f a)) → reads (bind m f).
Proof.
  intros Hm Hf s. unfold bind. specialize (Hm s).
  destruct (m s) as [[a|e] s1]; simpl in *; subst; [apply Hf | reflexivity].
Qed.

Lemma reads_resolve_scripts W manifestPath items :
  reads (resolve_scripts W manifestPath items).
Proof.
  induction items as [|j rest IH]; simpl; [apply reads_ret|].
  apply reads_bind; [apply (reads_path_argument (Some j))|]. intros p.
  apply reads_bind; [exact IH|]. intros ps. apply reads_ret.
Qed.

Lemma reads_manifest_declares_background manifest :
  reads (manifest_declares_background manifest).
Proof.
  unfold manifest_declares_background.
  apply reads_bind; [apply reads_jget|]. intros mb.
  destruct (ojson_truthy mb); [|apply reads_ret].
  apply reads_bind; [apply reads_ojget|]. intros page.
  destruct (ojson_truthy page); [apply reads_ret|].
  apply reads_bind; [apply reads_ojget|]. intros scripts. apply reads_ret.
Qed.

Lemma reads_manifest_declares_popup manifest :
  reads (manifest_declares_popup manifest).
Proof.
  unfold manifest_declares_popup.
  apply reads_bind; [apply reads_jget|]. intros ba.
  destruct (ojson_truthy ba); [|apply reads_ret].
  apply reads_bind; [apply reads_ojget|]. intros dp. apply reads_ret.
Qed.

Create HintDb frame.

#[export] Hint Resolve reads_ret reads_throw reads_get_state reads_get_prop
  reads_stored_context reads_jget reads_ojget reads_iterate reads_path_argument
  reads_callee reads_run_callback reads_parse reads_resolve_scripts
  reads_manifest_declares_background reads_manifest_declares_popup : frame.

(** Walks through a monadic program, one bind or branch at a time. *)
Ltac frame_steps :=
  repeat first
    [ progress intros
    | solve [auto with frame]
    | solve [apply reads_preserves; auto with frame]
    | apply preserves_bind
    | match goal with
      | |- preserves _ (match ?x with _ => _ end) => destruct x
      end ].

(** ** Frames: what a build leaves in place *)

Lemma frame_refl s0 k : frame s0 k s0.
Proof.
  split; try reflexivity.
  intros l o Hl Ho. apply lookup_lt_Some in Ho. lia.
Qed.

Lemma prefix_alter_above {A} (f : A → A) (l0 l : list A) i :
  l0 `prefix_of` l → length l0 ≤ i → l0 `prefix_of` alter f i l.
Proof.
  intros [t ->] Hi. exists (alter f (i - length l0) t).
  now rewrite alter_app_r_alt by lia.
Qed.

Lemma prefix_snoc {A} (l0 l : list A) x : l0 `prefix_of` l → l0 `prefix_of` l ++ [x].
Proof. intros H. now apply prefix_app_r. Qed.


Section Frame.

Variable s0 : State.
Variable k : string.

Lemma keeps_emit e : preserves (frame s0 k) (emit e).
Proof. intros s [? ? ? ? ? ?]. split; simpl; auto using prefix_snoc. Qed.

Lemma keeps_alloc_object : preserves (frame s0 k) alloc_object.
Proof.
  intros s [Hh Hp ? ? ? ?]. split; simpl; auto using prefix_snoc.
  intros l o Hl Ho. apply lookup_app_Some in Ho as [Ho|[_ Ho]]; [eauto|].
  apply list_lookup_singleton_Some in Ho as [_ <-]. reflexivity.
Qed.

Lemma keeps_default_object v : preserves (frame s0 k) (default_object v).
Proof.
  destruct v; simpl; auto using keeps_alloc_object;
    apply reads_preserves, reads_ret.
Qed.

Lemma keeps_createBrowser : preserves (frame s0 k) createBrowser.
Proof. intros s [? ? ? ? ? ?]. split; simpl; auto using prefix_snoc. Qed.

Lemma returns_createBrowser :
  returns (frame s0 k) createBrowser (fun b => length (browsers s0) ≤ b).
Proof.
  intros s a s' [_ _ Hb _ _ _] H. inversion H; subst.
  now apply prefix_length.
Qed.

Lemma keeps_update_browser b f :
  length (browsers s0) ≤ b → preserves (frame s0 k) (update_browser b f).
Proof. intros Hb s [? ? ? ? ? ?]. split; simpl; auto using prefix_alter_above. Qed.

Lemma keeps_update_dom d f :
  length (doms s0) ≤ d → preserves (frame s0 k) (update_dom d f).
Proof. intros Hd s [? ? ? ? ? ?]. split; simpl; auto using prefix_alter_above. Qed.

Lemma keeps_store_context key c : key ≠ k → preserves (frame s0 k) (store_context key c).
Proof.
  intros Hk s [? ? ? ? ? Hst]. split; simpl; auto.
  now rewrite lookup_insert_ne.
Qed.

Hint Resolve keeps_emit keeps_alloc_object keeps_default_object
  keeps_createBrowser keeps_update_browser keeps_update_dom
  keeps_store_context : frame.

Section WithWorld.

Variable W : World.

Lemma keeps_readFileSync p : preserves (frame s0 k) (readFileSync W p).
Proof. unfold readFileSync. frame_steps. Qed.

Lemma keeps_instrument src : preserves (frame s0 k) (instrument W src).
Proof. unfold instrument. frame_steps. Qed.

Lemma keeps_nextTick : preserves (frame s0 k) nextTick.
Proof. unfold nextTick. frame_steps. Qed.

Hint Resolve keeps_readFileSync keeps_instrument keeps_nextTick : frame.

Lemma keeps_optional_callback options key record :
  preserves (frame s0 k) (optional_callback W options key record).
Proof. unfold optional_callback. frame_steps. Qed.

Lemma keeps_instrument_scripts srcs : ∀ acc,
  preserves (frame s0 k) (instrument_scripts W srcs acc).
Proof. induction srcs; intros acc; simpl; frame_steps. Qed.

Lemma keeps_window_eval d code :
  length (doms s0) ≤ d → preserves (frame s0 k) (window_eval W d code).
Proof. intros Hd. unfold window_eval. frame_steps. Qed.

Hint Resolve keeps_optional_callback keeps_instrument_scripts
  keeps_window_eval : frame.

Lemma keeps_fakeApi b : length (browsers s0) ≤ b → preserves (frame s0 k) (fakeApi b).
Proof. intros Hb. unfold fakeApi. frame_steps. Qed.

Lemma keeps_sendMessage_callsFake b f :
  length (browsers s0) ≤ b → preserves (frame s0 k) (sendMessage_callsFake b f).
Proof. intros Hb. unfold sendMessage_callsFake. frame_steps. Qed.

Lemma keeps_alias_contextMenus b :
  length (browsers s0) ≤ b → preserves (frame s0 k) (alias_contextMenus b).
Proof. intros Hb. unfold alias_contextMenus. frame_steps. Qed.

Lemma keeps_set_window_browser d b :
  length (doms s0) ≤ d → preserves (frame s0 k) (set_window_browser d b).
Proof. intros Hd. unfold set_window_browser. frame_steps. Qed.

Hint Resolve keeps_fakeApi keeps_sendMessage_callsFake
  keeps_alias_contextMenus keeps_set_window_browser : frame.

Lemma keeps_background_beforeParse b options d :
  length (browsers s0) ≤ b → length (doms s0) ≤ d →
  preserves (frame s0 k) (background_beforeParse W b options d).
Proof. intros Hb Hd. unfold background_beforeParse. frame_steps. Qed.

Lemma keeps_popup_beforeParse b options d :
  length (browsers s0) ≤ b → length (doms s0) ≤ d →
  preserves (frame s0 k) (popup_beforeParse W b options d).
Proof. intros Hb Hd. unfold popup_beforeParse. frame_steps. Qed.

Lemma keeps_JSDOM_construct src f :
  (∀ d, length (doms s0) ≤ d → preserves (frame s0 k) (f d)) →
  preserves (frame s0 k) (JSDOM_construct src (Some f)).
Proof.
  intros Hf. unfold JSDOM_construct.
  eapply preserves_bind_returns with (Q := fun d => length (doms s0) ≤ d).
  - intros s [? ? ? ? ? ?]. split; simpl; auto using prefix_snoc.
  - intros s a s' [_ _ _ Hd _ _] H. inversion H; subst. now apply prefix_length.
  - intros d Hd. frame_steps.
Qed.

Lemma returns_JSDOM_construct src f :
  returns (frame s0 k) (JSDOM_construct src f) (fun d => length (doms s0) ≤ d).
Proof.
  intros s a s' [_ _ _ Hd _ _] H. unfold JSDOM_construct in H.
  apply bind_resolved in H as (d & s1 & H1 & H).
  inversion H1; subst; clear H1.
  repeat (apply bind_resolved in H as (? & ? & _ & H)).
  inversion H; subst. now apply prefix_length.
Qed.

Lemma keeps_buildDom p f html scripts :
  (∀ d, length (doms s0) ≤ d → preserves (frame s0 k) (f d)) →
  preserves (frame s0 k) (buildDom W (mkDomOptions p (Some f)) html scripts).
Proof.
  intros Hf. unfold buildDom; simpl.
  destruct (negb (html_truthy html)).
  - destruct p as [p|]; [|frame_steps].
    destruct (jsdom_fromFile W p); [|frame_steps].
    eapply preserves_bind_returns;
      [now apply keeps_JSDOM_construct | apply returns_JSDOM_construct |].
    intros d Hd. frame_steps.
  - eapply preserves_bind_returns;
      [now apply keeps_JSDOM_construct | apply returns_JSDOM_construct |].
    intros d Hd. frame_steps.
Qed.

(** Building the popup keeps everything that was there, and the stored
    background context. *)
Lemma keeps_buildPopup popupPath options :
  k ≠ "popup" → preserves (frame s0 k) (buildPopup W popupPath options).
Proof.
  intros Hk. unfold buildPopup.
  apply preserves_bind; [auto with frame|]. intros o.
  eapply preserves_bind_returns;
    [apply keeps_createBrowser | apply returns_createBrowser |].
  intros b Hb.
  apply preserves_bind; [auto with frame|]. intros _.
  apply preserves_bind.
  { apply keeps_buildDom. intros d Hd. now apply keeps_popup_beforeParse. }
  intros d. frame_steps.
Qed.

(** Building the background keeps everything that was there, and a stored
    popup context. *)
Lemma keeps_buildBackground background manifestPath options :
  k ≠ "background" → preserves (frame s0 k) (buildBackground W background manifestPath options).
Proof.
  intros Hk. unfold buildBackground.
  apply preserves_bind; [auto with frame|]. intros o.
  eapply preserves_bind_returns;
    [apply keeps_createBrowser | apply returns_createBrowser |].
  intros b Hb.
  apply preserves_bind; [auto with frame|]. intros _.
  assert (Hbp : ∀ p html scripts,
    preserves (frame s0 k) (buildDom W (mkDomOptions p (Some (background_beforeParse W b o))) html scripts)).
  { intros. apply keeps_buildDom. intros d Hd.
    now apply keeps_background_beforeParse. }
  frame_steps.
Qed.

End WithWorld.

End Frame.

(** ** What a resolved build has done *)

Lemma alter_fresh {A} (f : A → A) (l : list A) x :
  alter f (length l) (l ++ [x]) = l ++ [f x].
Proof.
  rewrite alter_app_r_alt by lia. now rewrite Nat.sub_diag.
Qed.

Lemma lookup_fresh {A} (l : list A) x : (l ++ [x]) !! length l = Some x.
Proof. rewrite lookup_app_r by lia. now rewrite Nat.sub_diag. Qed.

Lemma default_object_run v s :
  default_object v s =
    (Resolved (defaulted (heap s) v),
     mkState (defaulted_heap (heap s) v) (browsers s) (doms s) (webExtension s) (trace s)).
Proof. destruct v, s; reflexivity. Qed.

Lemma optional_callback_resolved W options key record s u s' :
  optional_callback W options key record s = (Resolved u, s') →
  ∃ evs, s' = log s evs.
Proof.
  unfold optional_callback. intros H.
  destruct (truthy options).
  - apply bind_resolved in H as (f & s1 & Hf & H).
    assert (s1 = s) as -> by (pose proof (reads_get_prop options key s) as E; now rewrite Hf in E).
    destruct (truthy f).
    + apply bind_resolved in H as (fn & s1 & Hc & H).
      assert (s1 = s) as -> by (pose proof (reads_callee f s) as E; now rewrite Hc in E).
      apply bind_resolved in H as ([] & s1 & He & H).
      inversion He; subst; clear He.
      pose proof (reads_run_callback W fn (log s [record fn])) as E.
      rewrite H in E. simpl in E. subst. eauto.
    + inversion H; subst. exists []. now rewrite log_nil.
  - inversion H; subst. exists []. now rewrite log_nil.
Qed.

Lemma popup_beforeParse_resolved W b options d s u s' :
  popup_beforeParse W b options d s = (Resolved u, s') →
  ∃ evs,
    s' = mkState (heap s)
           (alter (installs (truthy (own_prop (heap s) options "apiFake"))
                            (bool_decide (is_Some (webExtension s !! "background")))) b
                  (browsers s))
           (alter (with_window_browser b) d (doms s))
           (webExtension s)
           (trace s ++ ESetWindowBrowser d b :: evs).
Proof.
  unfold popup_beforeParse. intros H.
  apply bind_resolved in H as ([] & s1 & H1 & H).
  inversion H1; subst; clear H1.
  apply bind_resolved in H as (af & s1 & H1 & H).
  unfold get_prop in H1.
  assert (af = own_prop (heap s) options "apiFake" ∧ s1 = log
    (mkState (heap s) (browsers s) (alter (with_window_browser b) d (doms s))
       (webExtension s) (trace s)) [ESetWindowBrowser d b]) as [-> ->].
  { destruct options; inversion H1; subst; auto. }
  clear H1.
  apply bind_resolved in H as ([] & s1 & H1 & H).
  apply bind_resolved in H as (bg & s2 & H2 & H).
  inversion H2; subst; clear H2.
  apply bind_resolved in H as ([] & s3 & H3 & H).
  apply optional_callback_resolved in H as [evs ->].
  destruct (truthy (own_prop (heap s) options "apiFake")) eqn:Haf;
    inversion H1; subst; clear H1; simpl in *;
    destruct (webExtension s !! "background") as [c|] eqn:Hbg;
    inversion H3; subst; clear H3; unfold log; simpl;
    eexists; f_equal;
    rewrite ?list_alter_alter_eq;
    try (apply list_alter_ext; [intros [] _; reflexivity | reflexivity]);
    try (symmetry; apply list_alter_id; intros []; reflexivity);
    rewrite <- ?app_assoc; simpl; reflexivity.
Qed.

Lemma background_beforeParse_resolved W b options d s u s' :
  background_beforeParse W b options d s = (Resolved u, s') →
  ∃ evs,
    s' = mkState (heap s)
           (alter (installs (truthy (own_prop (heap s) options "apiFake")) false) b
                  (browsers s))
           (alter (with_window_browser b) d (doms s))
           (webExtension s)
           (trace s ++ ESetWindowBrowser d b :: evs).
Proof.
  unfold background_beforeParse. intros H.
  apply bind_resolved in H as ([] & s1 & H1 & H).
  inversion H1; subst; clear H1.
  apply bind_resolved in H as (af & s1 & H1 & H).
  unfold get_prop in H1.
  assert (af = own_prop (heap s) options "apiFake" ∧ s1 = log
    (mkState (heap s) (browsers s) (alter (with_window_browser b) d (doms s))
       (webExtension s) (trace s)) [ESetWindowBrowser d b]) as [-> ->].
  { destruct options; inversion H1; subst; auto. }
  clear H1.
  apply bind_resolved in H as ([] & s1 & H1 & H).
  apply optional_callback_resolved in H as [evs ->].
  destruct (truthy (own_prop (heap s) options "apiFake")) eqn:Haf;
    inversion H1; subst; clear H1; unfold log; simpl;
    eexists; f_equal;
    try (apply list_alter_ext; [intros [] _; reflexivity | reflexivity]);
    try (symmetry; apply list_alter_id; intros []; reflexivity);
    rewrite <- ?app_assoc; simpl; reflexivity.
Qed.

Lemma JSDOM_construct_resolved src f s d s' :
  JSDOM_construct src (Some f) s = (Resolved d, s') →
  d = length (doms s)
  ∧ ∃ s1,
      f d (mkState (heap s) (browsers s) (doms s ++ [mkDom src None false []])
                   (webExtension s) (trace s ++ [source_event d src]))
        = (Resolved tt, s1)
      ∧ s' = mkState (heap s1) (browsers s1) (alter mark_parsed d (doms s1))
                     (webExtension s1) (trace s1 ++ [EParse d]).
Proof.
  unfold JSDOM_construct. intros H.
  apply bind_resolved in H as (d' & s1 & H1 & H).
  inversion H1; subst; clear H1.
  apply bind_resolved in H as ([] & s1 & H1 & H).
  unfold bind, update_dom, emit, ret, log in H. simpl in H.
  inversion H; subst; clear H.
  split; [reflexivity|]. exists s1. split; [exact H1 | reflexivity].
Qed.

(** The complete effect of a resolved [buildDom]. *)
Lemma buildDom_resolved W p f html scripts s d s' :
  buildDom W (mkDomOptions p (Some f)) html scripts s = (Resolved d, s') →
  ∃ src srcs codes s1,
    source_of (mkDomOptions p (Some f)) html = Some src
    ∧ scripts_of W (mkDomOptions p (Some f)) html scripts = Some srcs
    ∧ Forall2 (instrumented_as W) srcs codes
    ∧ d = length (doms s)
    ∧ f d (mkState (heap s) (browsers s) (doms s ++ [mkDom src None false []])
                   (webExtension s) (trace s ++ [source_event d src]))
        = (Resolved tt, s1)
    ∧ s' = mkState (heap s1) (browsers s1)
             (alter (with_evaluated (concat_sources codes)) d (alter mark_parsed d (doms s1)))
             (webExtension s1)
             (trace s1 ++ [EParse d] ++ instrument_events srcs
                ++ [EEval d (concat_sources codes); ENextTick]).
Proof.
  unfold buildDom, scripts_of, source_of; simpl. intros H.
  destruct (negb (html_truthy html)).
  - destruct p as [p|]; [|discriminate]. simpl.
    destruct (jsdom_fromFile W p) as [srcs|]; [|discriminate].
    apply bind_resolved in H as (d' & s2 & Hd & H).
    apply JSDOM_construct_resolved in Hd as (-> & s1 & Hf & ->).
    apply bind_resolved in H as (code & s2 & Hi & H).
    apply instrument_scripts_resolved in Hi as (codes & Hall & -> & ->).
    unfold window_eval, nextTick, bind, emit, update_dom, ret in H.
    destruct (window_eval_ok W _); [|discriminate].
    simpl in H. inversion H; subst; clear H.
    exists (FromFile p), srcs, codes, s1. simpl.
    repeat split; try assumption.
    unfold log; simpl. f_equal. now rewrite <- !app_assoc.
  - apply bind_resolved in H as (d' & s2 & Hd & H).
    apply JSDOM_construct_resolved in Hd as (-> & s1 & Hf & ->).
    destruct scripts as [srcs|]; [|discriminate].
    apply bind_resolved in H as (code & s2 & Hi & H).
    apply instrument_scripts_resolved in Hi as (codes & Hall & -> & ->).
    unfold window_eval, nextTick, bind, emit, update_dom, ret in H.
    destruct (window_eval_ok W _); [|discriminate].
    simpl in H. inversion H; subst; clear H.
    exists (FromHtml (default "" html)), srcs, codes, s1. simpl.
    repeat split; try assumption.
    unfold log; simpl. f_equal. now rewrite <- !app_assoc.
Qed.

Lemma buildPopup_resolved W popupPath options s c s' :
  buildPopup W popupPath options s = (Resolved c, s') →
  let b := length (browsers s) in
  let d := length (doms s) in
  let h := defaulted_heap (heap s) options in
  let o := defaulted (heap s) options in
  ∃ srcs codes before after,
    jsdom_fromFile W popupPath = Some srcs
    ∧ Forall2 (instrumented_as W) srcs codes
    ∧ c = mkContext b d (window_document d) true
    ∧ s' = mkState h
             (browsers s ++ [built_browser (truthy (own_prop h o "apiFake"))
                               (bool_decide (is_Some (webExtension s !! "background")))])
             (doms s ++ [built_dom (FromFile popupPath) b (concat_sources codes)])
             (<["popup" := c]> (webExtension s))
             (trace s ++ build_events b d (FromFile popupPath) srcs codes before after).
Proof.
  intros H b d h o. subst b d. unfold buildPopup in H.
  apply bind_resolved in H as (o' & s1 & H1 & H).
  rewrite default_object_run in H1. inversion H1; subst o' s1; clear H1.
  fold h o in H.
  apply bind_resolved in H as (b' & s1 & H1 & H).
  inversion H1; subst b' s1; clear H1. simpl in H.
  apply bind_resolved in H as ([] & s1 & H1 & H).
  inversion H1; subst s1; clear H1. simpl in H.
  rewrite alter_fresh in H.
  apply bind_resolved in H as (d' & s1 & H1 & H).
  apply buildDom_resolved in H1
    as (src & srcs & codes & s2 & Hsrc & Hsrcs & Hall & -> & Hbp & ->).
  simpl in Hbp, H.
  unfold source_of in Hsrc; simpl in Hsrc. inversion Hsrc; subst src; clear Hsrc.
  unfold scripts_of in Hsrcs; simpl in Hsrcs.
  apply popup_beforeParse_resolved in Hbp as [before ->]. simpl in H.
  rewrite !alter_fresh in H.
  apply bind_resolved in H as ([] & s1 & H1 & H).
  inversion H1; subst s1; clear H1.
  apply bind_resolved in H as (st & s1 & H1 & H).
  inversion H1; subst st s1; clear H1. simpl in H.
  apply bind_resolved in H as ([] & s1 & H1 & H).
  apply optional_callback_resolved in H1 as [after ->].
  unfold stored_context, bind, log in H; simpl in H.
  rewrite lookup_insert_eq in H. inversion H; subst; clear H.
  exists srcs, codes, before, after.
  repeat split; try assumption.
  unfold build_events. simpl. f_equal.
  - unfold installs, built_browser; simpl. now rewrite orb_false_r.
  - repeat (rewrite <- app_assoc; simpl). reflexivity.
Qed.

(** ** The page a background declaration leads to *)

Lemma jget_resolved j key s o s' :
  jget j key s = (Resolved o, s') → o = field j key ∧ s' = s ∧ j ≠ JNull.
Proof. destruct j; simpl; intros H; inversion H; subst; auto. Qed.

Lemma ojget_resolved oj key s o s' :
  ojget oj key s = (Resolved o, s') →
  ∃ j, oj = Some j ∧ o = field j key ∧ s' = s ∧ j ≠ JNull.
Proof.
  destruct oj as [j|]; simpl; intros H; [|discriminate].
  apply jget_resolved in H as (-> & -> & ?). eauto.
Qed.

Lemma path_argument_resolved o s p s' :
  path_argument o s = (Resolved p, s') → o ≫= json_string = Some p ∧ s' = s.
Proof. destruct o as [[]|]; simpl; intros H; inversion H; subst; auto. Qed.

Lemma iterate_resolved j s items s' :
  iterate j s = (Resolved items, s') → iterated j = Some items ∧ s' = s.
Proof. destruct j; simpl; intros H; inversion H; subst; auto. Qed.

Lemma resolve_scripts_resolved W manifestPath items : ∀ s ps s',
  resolve_scripts W manifestPath items s = (Resolved ps, s') →
  ∃ scripts, mapM json_string items = Some scripts
             ∧ ps = map (script_path W manifestPath) scripts ∧ s' = s.
Proof.
  induction items as [|j rest IH]; intros s ps s' H.
  - inversion H; subst. exists []. auto.
  - simpl in H. apply bind_resolved in H as (p & s1 & H1 & H).
    apply (path_argument_resolved (Some j)) in H1 as [Hp ->]. simpl in Hp.
    apply bind_resolved in H as (ps' & s1 & H1 & H).
    apply IH in H1 as (scripts & Hm & -> & ->).
    inversion H; subst; clear H.
    exists (p :: scripts). split; [|auto].
    rewrite mapM_Some. constructor; [exact Hp | now apply mapM_Some].
Qed.

Lemma buildBackground_resolved W background manifestPath options s c s' :
  buildBackground W background manifestPath options s = (Resolved c, s') →
  let b := length (browsers s) in
  let d := length (doms s) in
  let h := defaulted_heap (heap s) options in
  let o := defaulted (heap s) options in
  ∃ src srcs codes before after,
    background_plan W background manifestPath = Some (src, srcs)
    ∧ Forall2 (instrumented_as W) srcs codes
    ∧ c = mkContext b d (window_document d) false
    ∧ s' = mkState h
             (browsers s ++ [built_browser (truthy (own_prop h o "apiFake")) false])
             (doms s ++ [built_dom src b (concat_sources codes)])
             (<["background" := c]> (webExtension s))
             (trace s ++ build_events b d src srcs codes before after).
Proof.
  intros H b d h o. subst b d. unfold buildBackground in H.
  apply bind_resolved in H as (o' & s1 & H1 & H).
  rewrite default_object_run in H1. inversion H1; subst o' s1; clear H1.
  fold h o in H.
  apply bind_resolved in H as (b' & s1 & H1 & H).
  inversion H1; subst b' s1; clear H1. simpl in H.
  apply bind_resolved in H as ([] & s1 & H1 & H).
  inversion H1; subst s1; clear H1. simpl in H.
  rewrite alter_fresh in H.
  apply bind_resolved in H as (page & s1 & H1 & H).
  apply jget_resolved in H1 as (-> & -> & _).
  apply bind_resolved in H as (dom & s1 & H1 & H).
  assert (∃ src srcs codes before,
    background_plan W background manifestPath = Some (src, srcs)
    ∧ Forall2 (instrumented_as W) srcs codes
    ∧ dom = Some (length (doms s))
    ∧ s1 = mkState h
             (browsers s ++ [built_browser (truthy (own_prop h o "apiFake")) false])
             (doms s ++ [built_dom src (length (browsers s)) (concat_sources codes)])
             (webExtension s)
             (trace s ++ build_events (length (browsers s)) (length (doms s))
                src srcs codes before []))
    as (src & srcs & codes & before & Hplan & Hall & -> & ->).
  { unfold background_plan.
    destruct (ojson_truthy (field background "page")) eqn:Hpage.
    - apply bind_resolved in H1 as (p & s2 & H2 & H1).
      apply path_argument_resolved in H2 as [Hp ->]. rewrite Hp. simpl.
      apply bind_resolved in H1 as (d' & s2 & H2 & H1).
      inversion H1; subst dom s2; clear H1.
      apply buildDom_resolved in H2
        as (src & srcs & codes & s2 & Hsrc & Hsrcs & Hall & -> & Hbp & ->).
      unfold source_of in Hsrc; simpl in Hsrc. inversion Hsrc; subst src; clear Hsrc.
      unfold scripts_of in Hsrcs; simpl in Hsrcs. rewrite Hsrcs. simpl.
      apply background_beforeParse_resolved in Hbp as [before ->]. simpl.
      rewrite !alter_fresh.
      exists (FromFile (path_resolve W [manifestPath; p])), srcs, codes, before.
      repeat split; try assumption.
      unfold build_events. simpl. f_equal.
      + unfold installs, built_browser; simpl. now rewrite orb_false_r.
      + repeat (rewrite <- app_assoc; simpl). reflexivity.
    - apply bind_resolved in H1 as (scripts & s2 & H2 & H1).
      apply jget_resolved in H2 as (-> & -> & _).
      destruct (ojson_truthy (field background "scripts")) eqn:Hscripts;
        [|inversion H1; subst; simpl in H; discriminate].
      apply bind_resolved in H1 as (items & s2 & H2 & H1).
      apply iterate_resolved in H2 as [Hit ->].
      apply bind_resolved in H1 as (ps & s2 & H2 & H1).
      apply resolve_scripts_resolved in H2 as (strs & Hm & -> & ->).
      apply bind_resolved in H1 as (d' & s2 & H2 & H1).
      inversion H1; subst dom s2; clear H1.
      apply buildDom_resolved in H2
        as (src & srcs & codes & s2 & Hsrc & Hsrcs & Hall & -> & Hbp & ->).
      unfold source_of in Hsrc; simpl in Hsrc. inversion Hsrc; subst src; clear Hsrc.
      unfold scripts_of in Hsrcs; simpl in Hsrcs. inversion Hsrcs; subst srcs; clear Hsrcs.
      destruct (field background "scripts") as [js|] eqn:Hf; [|discriminate].
      simpl in Hit. simpl. rewrite Hit. simpl. rewrite Hm. simpl.
      apply background_beforeParse_resolved in Hbp as [before ->]. simpl.
      rewrite !alter_fresh.
      exists (FromHtml blank_page), (map (script_path W manifestPath) strs), codes, before.
      repeat split; try assumption.
      unfold build_events. simpl. f_equal.
      + unfold installs, built_browser; simpl. now rewrite orb_false_r.
      + repeat (rewrite <- app_assoc; simpl). reflexivity. }
  clear H1. simpl in H.
  apply bind_resolved in H as ([] & s1 & H1 & H).
  inversion H1; subst s1; clear H1.
  apply bind_resolved in H as (st & s1 & H1 & H).
  inversion H1; subst st s1; clear H1. simpl in H.
  apply bind_resolved in H as ([] & s1 & H1 & H).
  apply optional_callback_resolved in H1 as [after ->].
  unfold stored_context, bind, log in H; simpl in H.
  rewrite lookup_insert_eq in H. inversion H; subst; clear H.
  exists src, srcs, codes, before, after.
  repeat split; try assumption.
  unfold build_events. simpl. f_equal.
  repeat (rewrite <- app_assoc; simpl). rewrite ?app_nil_r. reflexivity.
Qed.

(** ** The two phases of [fromManifest] *)

Lemma manifest_declares_background_resolved manifest s b s' :
  manifest_declares_background manifest s = (Resolved b, s') →
  b = declares_background manifest ∧ s' = s.
Proof.
  unfold manifest_declares_background, declares_background. intros H.
  apply bind_resolved in H as (mb & s1 & H1 & H).
  apply jget_resolved in H1 as (-> & -> & _).
  destruct (ojson_truthy (field manifest "background")) eqn:Hmb;
    [|inversion H; subst; auto].
  apply bind_resolved in H as (page & s1 & H1 & H).
  apply ojget_resolved in H1 as (j & Hj & -> & -> & _). rewrite Hj. simpl.
  destruct (ojson_truthy (field j "page")); [inversion H; subst; auto|].
  apply bind_resolved in H as (scripts & s1 & H1 & H).
  apply ojget_resolved in H1 as (j' & Hj' & -> & -> & _).
  rewrite Hj in Hj'. inversion Hj'; subst j'.
  inversion H; subst; auto.
Qed.

Lemma manifest_declares_popup_resolved manifest s b s' :
  manifest_declares_popup manifest s = (Resolved b, s') →
  b = declares_popup manifest ∧ s' = s.
Proof.
  unfold manifest_declares_popup, declares_popup. intros H.
  apply bind_resolved in H as (ba & s1 & H1 & H).
  apply jget_resolved in H1 as (-> & -> & _).
  destruct (ojson_truthy (field manifest "browser_action")) eqn:Hba;
    [|inversion H; subst; auto].
  apply bind_resolved in H as (dp & s1 & H1 & H).
  apply ojget_resolved in H1 as (j & Hj & -> & -> & _). rewrite Hj. simpl.
  inversion H; subst; auto.
Qed.

Lemma with_heap_same s : with_heap s (heap s) = s.
Proof. now destruct s. Qed.

Lemma get_prop_resolved v key s x s' :
  get_prop v key s = (Resolved x, s') → x = own_prop (heap s) v key ∧ s' = s.
Proof. unfold get_prop. destruct v; intros H; inversion H; subst; auto. Qed.

Lemma get_prop_run v key s :
  is_nullish v = false → get_prop v key s = (Resolved (own_prop (heap s) v key), s).
Proof. destruct v; simpl; intros H; try discriminate; reflexivity. Qed.

Lemma get_prop_nullish v key s :
  is_nullish v = true →
  get_prop v key s = (Rejected (TypeError (CannotReadProperty key)), s).
Proof. destruct v; simpl; intros H; try discriminate; reflexivity. Qed.

Lemma set_prop_run v key x s :
  is_nullish v = false →
  set_prop v key x s = (Resolved tt, with_heap s (assign (heap s) v key x)).
Proof.
  destruct v; simpl; intros H; try discriminate;
    try (now rewrite with_heap_same); reflexivity.
Qed.

Lemma set_prop_nullish v key x s :
  is_nullish v = true →
  set_prop v key x s = (Rejected (TypeError (CannotReadProperty key)), s).
Proof. destruct v; simpl; intros H; try discriminate; reflexivity. Qed.

Lemma assign_nullish h v key x : is_nullish v = true → assign h v key x = h.
Proof. destruct v; simpl; intros H; try discriminate; reflexivity. Qed.

(** The state [prepare_options] stops in, whatever its outcome. *)
Lemma prepare_options_state options k s :
  is_nullish options = false →
  (prepare_options options k s).2 = with_heap s (prepared_heap (heap s) options k).
Proof.
  intros Hn. unfold prepare_options, prepared_heap, replaced_heap.
  unfold bind at 1. rewrite (get_prop_run _ _ _ Hn).
  unfold bind at 1, get_state.
  destruct (decide (typeof (heap s) (own_prop (heap s) options k) = TObject)) as [Ht|Ht].
  - unfold bind at 1, ret. unfold bind at 1. rewrite (get_prop_run _ _ _ Hn).
    destruct (decide (own_prop (heap s) options "apiFake" = VUndefined)) as [Ha|Ha].
    { simpl. now rewrite with_heap_same. }
    unfold bind at 1. rewrite (get_prop_run _ _ _ Hn).
    unfold bind at 1. rewrite (get_prop_run _ _ _ Hn).
    destruct (is_nullish (own_prop (heap s) options k)) eqn:Hk.
    + rewrite (set_prop_nullish _ _ _ _ Hk), (assign_nullish _ _ _ _ Hk). simpl.
      now rewrite with_heap_same.
    + now rewrite (set_prop_run _ _ _ _ Hk).
  - unfold bind at 1. unfold bind at 1, alloc_object.
    rewrite (set_prop_run _ _ _ _ Hn). cbn [heap with_heap].
    set (h1 := assign (heap s ++ [empty_object]) options k (VRef (length (heap s)))).
    unfold bind at 1. rewrite (get_prop_run _ _ _ Hn). cbn [heap with_heap].
    destruct (decide (own_prop h1 options "apiFake" = VUndefined)) as [Ha|Ha].
    { reflexivity. }
    unfold bind at 1. rewrite (get_prop_run _ _ _ Hn). cbn [heap with_heap].
    unfold bind at 1. rewrite (get_prop_run _ _ _ Hn). cbn [heap with_heap].
    destruct (is_nullish (own_prop h1 options k)) eqn:Hk.
    + rewrite (set_prop_nullish _ _ _ _ Hk), (assign_nullish _ _ _ _ Hk). reflexivity.
    + now rewrite (set_prop_run _ _ _ _ Hk).
Qed.

Lemma prepare_options_nullish options k s :
  is_nullish options = true → ∃ e, prepare_options options k s = (Rejected e, s).
Proof.
  intros Hn. unfold prepare_options, bind at 1.
  rewrite (get_prop_nullish _ _ _ Hn). eauto.
Qed.

Lemma get_prop_resolved_nullish v key s x s' :
  get_prop v key s = (Resolved x, s') → is_nullish v = false.
Proof. destruct v; simpl; intros H; try discriminate; reflexivity. Qed.

Lemma prepare_options_resolved options k s u s' :
  prepare_options options k s = (Resolved u, s') →
  is_nullish options = false ∧ s' = with_heap s (prepared_heap (heap s) options k).
Proof.
  intros H. destruct (is_nullish options) eqn:Hn.
  - destruct (prepare_options_nullish options k s Hn) as [e He]. congruence.
  - split; [reflexivity|].
    rewrite <- (prepare_options_state options k s Hn). now rewrite H.
Qed.

Lemma load_background_resolved W manifest manifestPath options we s we' s' :
  load_background W manifest manifestPath options we s = (Resolved we', s') →
  is_nullish options = false
  ∧ if option_enabled (own_prop (heap s) options "background")
       && declares_background manifest
    then ∃ mb c,
        let hp := prepared_heap (heap s) options "background" in
        field manifest "background" = Some mb
        ∧ buildBackground W mb manifestPath (own_prop hp options "background")
            (with_heap s hp) = (Resolved c, s')
        ∧ we' = <["background" := c]> we
    else we' = we ∧ s' = s.
Proof.
  unfold load_background. intros H.
  apply bind_resolved in H as (ob & s1 & H1 & H).
  pose proof (get_prop_resolved_nullish _ _ _ _ _ H1) as Hn.
  apply get_prop_resolved in H1 as [-> ->].
  split; [exact Hn|].
  apply bind_resolved in H as (declared & s1 & H1 & H).
  destruct (option_enabled (own_prop (heap s) options "background")); simpl.
  - apply manifest_declares_background_resolved in H1 as [-> ->].
    destruct (declares_background manifest) eqn:Hd; [|inversion H; subst; auto].
    apply bind_resolved in H as ([] & s1 & H1 & H).
    apply prepare_options_resolved in H1 as [_ ->].
    apply bind_resolved in H as (mb & s1 & H1 & H).
    apply jget_resolved in H1 as (-> & -> & _).
    apply bind_resolved in H as (ob & s1 & H1 & H).
    apply get_prop_resolved in H1 as [-> ->].
    apply bind_resolved in H as (c & s1 & H1 & H).
    inversion H; subst; clear H.
    unfold declares_background in Hd.
    destruct (field manifest "background") as [mb|] eqn:Hmb; [|discriminate].
    exists mb, c. simpl in *. auto.
  - inversion H1; subst. inversion H; subst; auto.
Qed.

Lemma load_popup_resolved W manifest manifestPath options we s we' s' :
  load_popup W manifest manifestPath options we s = (Resolved we', s') →
  is_nullish options = false
  ∧ if option_enabled (own_prop (heap s) options "popup") && declares_popup manifest
    then ∃ p c,
        let hp := prepared_heap (heap s) options "popup" in
        declared_popup manifest = Some p
        ∧ buildPopup W (path_resolve W [manifestPath; p]) (own_prop hp options "popup")
            (with_heap s hp) = (Resolved c, s')
        ∧ we' = <["popup" := c]> we
    else we' = we ∧ s' = s.
Proof.
  unfold load_popup. intros H.
  apply bind_resolved in H as (op & s1 & H1 & H).
  pose proof (get_prop_resolved_nullish _ _ _ _ _ H1) as Hn.
  apply get_prop_resolved in H1 as [-> ->].
  split; [exact Hn|].
  apply bind_resolved in H as (declared & s1 & H1 & H).
  destruct (option_enabled (own_prop (heap s) options "popup")); simpl.
  - apply manifest_declares_popup_resolved in H1 as [-> ->].
    destruct (declares_popup manifest) eqn:Hd; [|inversion H; subst; auto].
    apply bind_resolved in H as (ba & s1 & H1 & H).
    apply jget_resolved in H1 as (-> & -> & _).
    apply bind_resolved in H as (dp & s1 & H1 & H).
    apply ojget_resolved in H1 as (j & Hj & -> & -> & _).
    apply bind_resolved in H as (p & s1 & H1 & H).
    apply path_argument_resolved in H1 as [Hp ->].
    apply bind_resolved in H as ([] & s1 & H1 & H).
    apply prepare_options_resolved in H1 as [_ ->].
    apply bind_resolved in H as (op & s1 & H1 & H).
    apply get_prop_resolved in H1 as [-> ->].
    apply bind_resolved in H as (c & s1 & H1 & H).
    inversion H; subst; clear H.
    exists p, c. unfold declared_popup. rewrite Hj. simpl in *. auto.
  - inversion H1; subst. inversion H; subst; auto.
Qed.

Lemma fromManifest_resolved W manifestPath options s r s' :
  fromManifest W manifestPath options s = (Resolved r, s') →
  ∃ text manifest we1 s1,
    fs_readFileSync W (path_resolve W [manifestPath; "manifest.json"]) = Some text
    ∧ JSON_parse W text = Some manifest
    ∧ load_background W manifest manifestPath (defaulted (heap s) options) ∅
        (started W manifestPath options s) = (Resolved we1, s1)
    ∧ load_popup W manifest manifestPath (defaulted (heap s) options) we1 s1
        = (Resolved r, s').
Proof.
  unfold fromManifest. intros H.
  apply bind_resolved in H as (o & s1 & H1 & H).
  rewrite default_object_run in H1. inversion H1; subst o s1; clear H1.
  apply bind_resolved in H as ([] & s1 & H1 & H).
  inversion H1; subst s1; clear H1.
  apply bind_resolved in H as (text & s1 & H1 & H).
  unfold readFileSync, bind, emit in H1. simpl in H1.
  destruct (fs_readFileSync W _) as [text'|] eqn:Hfs; [|discriminate].
  inversion H1; subst text' s1; clear H1.
  apply bind_resolved in H as (manifest & s1 & H1 & H).
  unfold parse in H1.
  destruct (JSON_parse W text) as [m|] eqn:Hparse; [|discriminate].
  inversion H1; subst m s1; clear H1.
  apply bind_resolved in H as (we1 & s1 & H1 & H).
  apply bind_resolved in H as (we2 & s2 & H2 & H).
  inversion H; subst; clear H.
  exists text, manifest, we1, s1. auto.
Qed.

(** ** Message forwarding *)



(** ** Which pages are loaded, and when the forwarding is installed *)

Lemma load_background_store W manifest manifestPath options s we1 s1 :
  webExtension s = ∅ →
  load_background W manifest manifestPath options ∅ s = (Resolved we1, s1) →
  webExtension s1 = we1
  ∧ (∀ k, is_Some (we1 !! k) → k = "background")
  ∧ browsers s `prefix_of` browsers s1
  ∧ doms s `prefix_of` doms s1
  ∧ (∀ c, we1 !! "background" = Some c →
       ctx_browser c = length (browsers s) ∧ ctx_dom c = length (doms s)
       ∧ length (browsers s1) = S (length (browsers s))
       ∧ length (doms s1) = S (length (doms s)))
  ∧ (we1 !! "background" = None → browsers s1 = browsers s ∧ doms s1 = doms s).
Proof.
  intros He H. apply load_background_resolved in H as [_ H].
  destruct (_ && _).
  - destruct H as (mb & c & _ & Hb & ->).
    apply buildBackground_resolved in Hb
      as (src & srcs & codes & before & after & _ & _ & Hc & ->).
    simpl in *. rewrite He. repeat split.
    + intros k [x Hx]. destruct (decide (k = "background")) as [|Hne]; [assumption|].
      rewrite lookup_insert_ne in Hx by congruence. now rewrite lookup_empty in Hx.
    + now apply prefix_app_r.
    + now apply prefix_app_r.
    + rewrite lookup_insert_eq in H. inversion H; subst. reflexivity.
    + rewrite lookup_insert_eq in H. inversion H; subst. reflexivity.
    + rewrite length_app. simpl. lia.
    + rewrite length_app. simpl. lia.
    + rewrite lookup_insert_eq in H. discriminate.
    + rewrite lookup_insert_eq in H. discriminate.
  - destruct H as [-> ->]. rewrite He. repeat split; try reflexivity.
    + intros k [x Hx]. now rewrite lookup_empty in Hx.
    + rewrite lookup_empty in H. discriminate.
    + rewrite lookup_empty in H. discriminate.
    + rewrite lookup_empty in H. discriminate.
    + rewrite lookup_empty in H. discriminate.
Qed.

(** C2, as the code has it. No option gates the forwarding: in every resolved
    [fromManifest] that built a popup, the popup's [sendMessage] stub forwards
    to the background exactly when a background context was built. *)
Theorem forwarding_installed_iff_background_built W manifestPath options s r s' p :
  fromManifest W manifestPath options s = (Resolved r, s') →
  r !! "popup" = Some p →
  ∃ br, stub_of s' r "popup" = Some br
        ∧ (sendMessage_fake br = Some ForwardToBackground ↔ is_Some (r !! "background")).
Proof.
  intros H Hp.
  apply fromManifest_resolved in H as (text & manifest & we1 & s1 & _ & _ & H1 & H2).
  apply load_background_store in H1 as (Hst & Hkeys & _); [|reflexivity].
  apply load_popup_resolved in H2 as [_ H2].
  destruct (_ && _).
  - destruct H2 as (path & c & _ & Hb & ->).
    apply buildPopup_resolved in Hb
      as (srcs & codes & before & after & _ & _ & Hc & ->).
    simpl in *. rewrite lookup_insert_eq in Hp. inversion Hp; subst p; clear Hp.
    subst c. unfold stub_of. rewrite lookup_insert_eq. simpl.
    rewrite lookup_fresh. eexists; split; [reflexivity|].
    rewrite lookup_insert_ne by discriminate. rewrite Hst.
    unfold built_browser; simpl. case_bool_decide as Hd; split; intros Hx; auto.
    + discriminate.
    + contradiction.
  - destruct H2 as [-> ->].
    assert ("popup" = "background") by (apply Hkeys; eauto). discriminate.
Qed.

Lemma forwarding_installed_iff_background_built_witness :
  ∃ br, stub_of (fromManifest (Example.world Example.manifest_all) "/ext" VUndefined
                   initial_state).2
                (<["popup" := mkContext 1 1 (window_document 1) true]>
                   (<["background" := mkContext 0 0 (window_document 0) false]> ∅))
                "popup" = Some br
        ∧ (sendMessage_fake br = Some ForwardToBackground
           ↔ is_Some ((<["popup" := mkContext 1 1 (window_document 1) true]>
                   (<["background" := mkContext 0 0 (window_document 0) false]> ∅)
                        : gmap string Context) !! "background")).
Proof.
  apply (forwarding_installed_iff_background_built
           (Example.world Example.manifest_all) "/ext" VUndefined initial_state
           _ _ (mkContext 1 1 (window_document 1) true)).
  - vm_compute. reflexivity.
  - vm_compute. reflexivity.
Defined.

(** C2, as stated, fails: with [wiring: false] in the options, and a manifest
    declaring a background page and a popup, both contexts are built and the
    forwarding is installed on the popup's stub all the same. *)
Lemma forwarding_installed_with_wiring_off :
  let run := fromManifest (Example.world Example.manifest_all) "/ext" (VRef 0)
               (Example.state_with_options options_wiring_off) in
  own_prop (heap run.2) (VRef 0) "wiring" = VBool false
  ∧ ∃ r, run.1 = Resolved r
         ∧ is_Some (r !! "background") ∧ is_Some (r !! "popup")
         ∧ sendMessage_fake <$> stub_of run.2 r "popup" = Some (Some ForwardToBackground).
Proof.
  split; [vm_compute; reflexivity|].
  eexists. split; [vm_compute; reflexivity|].
  split; [vm_compute; eauto|]. split; [vm_compute; eauto|].
  vm_compute. reflexivity.
Qed.

(** The two phases, end to end: either the guard fails and nothing happens, or
    one stub and one DOM are added and the context is stored. *)
Lemma load_background_built W manifest manifestPath options we s we' s' :
  load_background W manifest manifestPath options we s = (Resolved we', s') →
  if option_enabled (own_prop (heap s) options "background")
     && declares_background manifest
  then ∃ mb src srcs codes before after,
      let hp := prepared_heap (heap s) options "background" in
      let ob := own_prop hp options "background" in
      let b := length (browsers s) in
      let d := length (doms s) in
      let c := mkContext b d (window_document d) false in
      field manifest "background" = Some mb
      ∧ background_plan W mb manifestPath = Some (src, srcs)
      ∧ Forall2 (instrumented_as W) srcs codes
      ∧ we' = <["background" := c]> we
      ∧ s' = mkState (defaulted_heap hp ob)
               (browsers s ++ [built_browser
                  (truthy (own_prop (defaulted_heap hp ob) (defaulted hp ob) "apiFake"))
                  false])
               (doms s ++ [built_dom src b (concat_sources codes)])
               (<["background" := c]> (webExtension s))
               (trace s ++ build_events b d src srcs codes before after)
  else we' = we ∧ s' = s.
Proof.
  intros H. apply load_background_resolved in H as [_ H].
  destruct (_ && _); [|exact H].
  destruct H as (mb & c & Hmb & Hb & ->).
  apply buildBackground_resolved in Hb
    as (src & srcs & codes & before & after & Hplan & Hall & -> & ->).
  exists mb, src, srcs, codes, before, after. simpl. auto.
Qed.

Lemma load_popup_built W manifest manifestPath options we s we' s' :
  load_popup W manifest manifestPath options we s = (Resolved we', s') →
  if option_enabled (own_prop (heap s) options "popup") && declares_popup manifest
  then ∃ p srcs codes before after,
      let hp := prepared_heap (heap s) options "popup" in
      let op := own_prop hp options "popup" in
      let b := length (browsers s) in
      let d := length (doms s) in
      let c := mkContext b d (window_document d) true in
      let src := FromFile (path_resolve W [manifestPath; p]) in
      declared_popup manifest = Some p
      ∧ jsdom_fromFile W (path_resolve W [manifestPath; p]) = Some srcs
      ∧ Forall2 (instrumented_as W) srcs codes
      ∧ we' = <["popup" := c]> we
      ∧ s' = mkState (defaulted_heap hp op)
               (browsers s ++ [built_browser
                  (truthy (own_prop (defaulted_heap hp op) (defaulted hp op) "apiFake"))
                  (bool_decide (is_Some (webExtension s !! "background")))])
               (doms s ++ [built_dom src b (concat_sources codes)])
               (<["popup" := c]> (webExtension s))
               (trace s ++ build_events b d src srcs codes before after)
  else we' = we ∧ s' = s.
Proof.
  intros H. apply load_popup_resolved in H as [_ H].
  destruct (_ && _); [|exact H].
  destruct H as (p & c & Hp & Hb & ->).
  apply buildPopup_resolved in Hb
    as (srcs & codes & before & after & Hsrcs & Hall & -> & ->).
  exists p, srcs, codes, before, after. simpl. auto.
Qed.

Lemma lookup_first_of_two {A} (l : list A) x y :
  ((l ++ [x]) ++ [y]) !! length l = Some x.
Proof. rewrite lookup_app_l by (rewrite length_app; simpl; lia). apply lookup_fresh. Qed.


(** Case analysis on the key of a lookup in a result object. *)
Ltac split_key H :=
  repeat (apply lookup_insert_Some in H as [[? ?]|[? H]]);
  try discriminate;
  try (rewrite lookup_empty in H; discriminate);
  subst.




(** ** The undefined [dom] of [buildBackground] *)

Lemma avoids_bind_with e {A B} (m : M A) (f : A → M B) :
  avoids e m →
  (∀ s a s', m s = (Resolved a, s') → avoids e (f a)) →
  avoids e (bind m f).
Proof.
  intros Hm Hf s. unfold bind. specialize (Hm s). specialize (Hf s).
  destruct (m s) as [[a|e'] s1]; simpl in *.
  - eapply Hf; reflexivity.
  - congruence.
Qed.

Lemma avoids_bind e {A B} (m : M A) (f : A → M B) :
  avoids e m → (∀ a, avoids e (f a)) → avoids e (bind m f).
Proof. intros Hm Hf. apply avoids_bind_with; auto. Qed.

Lemma avoids_ret e {A} (a : A) : avoids e (ret a).
Proof. intros s. discriminate. Qed.

Lemma avoids_throw e {A} e' : e' ≠ e → avoids e (@throw A e').
Proof. intros Hne s. simpl. congruence. Qed.

Lemma avoids_total e {A} (m : M A) : (∀ s, ∃ a, (m s).1 = Resolved a) → avoids e m.
Proof. intros H s. destruct (H s) as [a ->]. discriminate. Qed.

Lemma avoids_get_prop v key : key ≠ "window" → avoids undefined_dom (get_prop v key).
Proof.
  intros Hk s. unfold get_prop, undefined_dom. destruct v; simpl; congruence.
Qed.

Lemma avoids_jget j key : key ≠ "window" → avoids undefined_dom (jget j key).
Proof. intros Hk s. unfold undefined_dom. destruct j; simpl; congruence. Qed.

Lemma avoids_ojget o key : key ≠ "window" → avoids undefined_dom (ojget o key).
Proof.
  intros Hk. destruct o; simpl; [now apply avoids_jget|].
  apply avoids_throw. unfold undefined_dom. congruence.
Qed.

Lemma avoids_iterate j : avoids undefined_dom (iterate j).
Proof. intros s. destruct j; simpl; discriminate. Qed.

Lemma avoids_path_argument o : avoids undefined_dom (path_argument o).
Proof. intros s. destruct o as [[]|]; simpl; discriminate. Qed.

Lemma avoids_callee f : avoids undefined_dom (callee f).
Proof.
  intros s. unfold callee. destruct f; simpl; try discriminate.
  destruct (heap s !! l) as [[? [?|]]|]; simpl; discriminate.
Qed.

Lemma avoids_set_prop v key x : key ≠ "window" → avoids undefined_dom (set_prop v key x).
Proof.
  intros Hk s. unfold set_prop, undefined_dom. destruct v; simpl; congruence.
Qed.

Create HintDb avoid.

#[export] Hint Resolve avoids_ret avoids_get_prop avoids_jget avoids_ojget
  avoids_iterate avoids_path_argument avoids_callee avoids_set_prop : avoid.

#[export] Hint Extern 1 (avoids _ (throw _)) =>
  apply avoids_throw; discriminate : avoid.
#[export] Hint Extern 1 (avoids _ (emit _)) =>
  apply avoids_total; intros; eexists; reflexivity : avoid.
#[export] Hint Extern 1 (avoids _ (update_dom _ _)) =>
  apply avoids_total; intros; eexists; reflexivity : avoid.
#[export] Hint Extern 1 (avoids _ (update_browser _ _)) =>
  apply avoids_total; intros; eexists; reflexivity : avoid.
#[export] Hint Extern 1 (avoids _ (store_context _ _)) =>
  apply avoids_total; intros; eexists; reflexivity : avoid.
#[export] Hint Extern 1 (avoids _ (stored_context _)) =>
  apply avoids_total; intros; eexists; reflexivity : avoid.
#[export] Hint Extern 1 (avoids _ createBrowser) =>
  apply avoids_total; intros; eexists; reflexivity : avoid.
#[export] Hint Extern 1 (avoids _ alloc_object) =>
  apply avoids_total; intros; eexists; reflexivity : avoid.
#[export] Hint Extern 1 (avoids _ get_state) =>
  apply avoids_total; intros; eexists; reflexivity : avoid.
#[export] Hint Extern 1 (avoids _ new_instance) =>
  apply avoids_total; intros; eexists; reflexivity : avoid.
#[export] Hint Extern 1 (_ ≠ _) => discriminate : avoid.

Ltac avoid_steps :=
  repeat first
    [ progress intros
    | solve [auto with avoid]
    | apply avoids_bind
    | match goal with
      | |- avoids _ (match ?x with _ => _ end) => destruct x
      end ].

Section Avoids.

Variable W : World.

Lemma avoids_default_object v : avoids undefined_dom (default_object v).
Proof. destruct v; simpl; avoid_steps. Qed.

Lemma avoids_optional_callback options key record :
  key ≠ "window" → avoids undefined_dom (optional_callback W options key record).
Proof. intros Hk. unfold optional_callback, run_callback. avoid_steps. Qed.

Lemma avoids_instrument_scripts srcs : ∀ acc,
  avoids undefined_dom (instrument_scripts W srcs acc).
Proof.
  induction srcs; intros acc; simpl; unfold instrument; avoid_steps.
Qed.

Lemma avoids_resolve_scripts manifestPath items :
  avoids undefined_dom (resolve_scripts W manifestPath items).
Proof. induction items; simpl; avoid_steps. Qed.

Hint Resolve avoids_default_object avoids_optional_callback
  avoids_instrument_scripts avoids_resolve_scripts : avoid.

Lemma avoids_background_beforeParse b options d :
  avoids undefined_dom (background_beforeParse W b options d).
Proof.
  unfold background_beforeParse, set_window_browser, fakeApi. avoid_steps.
Qed.

Lemma avoids_popup_beforeParse b options d :
  avoids undefined_dom (popup_beforeParse W b options d).
Proof.
  unfold popup_beforeParse, set_window_browser, fakeApi, sendMessage_callsFake.
  avoid_steps.
Qed.

Lemma avoids_buildDom p f html scripts :
  (∀ d, avoids undefined_dom (f d)) →
  avoids undefined_dom (buildDom W (mkDomOptions p (Some f)) html scripts).
Proof.
  intros Hf. unfold buildDom, JSDOM_construct, window_eval, nextTick; simpl.
  avoid_steps.
  all: apply avoids_total; intros; eexists; reflexivity.
Qed.

Lemma avoids_buildPopup popupPath options :
  avoids undefined_dom (buildPopup W popupPath options).
Proof.
  unfold buildPopup, alias_contextMenus.
  pose proof avoids_buildDom. pose proof avoids_popup_beforeParse.
  avoid_steps.
Qed.

End Avoids.

Lemma jget_run j key s : j ≠ JNull → jget j key s = (Resolved (field j key), s).
Proof. destruct j; simpl; intros H; try reflexivity; congruence. Qed.

Lemma avoids_buildBackground W background manifestPath options :
  has_page_or_scripts background = true →
  avoids undefined_dom (buildBackground W background manifestPath options).
Proof.
  intros Hpre. unfold buildBackground, alias_contextMenus.
  apply avoids_bind; [apply avoids_default_object|]. intros o.
  apply avoids_bind; [auto with avoid|]. intros b.
  apply avoids_bind; [auto with avoid|]. intros _.
  apply avoids_bind_with; [auto with avoid|]. intros s page s' Hpage.
  apply jget_resolved in Hpage as (-> & -> & _).
  assert (Hdom : ∀ p html scripts,
    avoids undefined_dom
      (buildDom W (mkDomOptions p (Some (background_beforeParse W b o))) html scripts)).
  { intros. apply avoids_buildDom. intros d. apply avoids_background_beforeParse. }
  apply avoids_bind_with.
  - pose proof (avoids_resolve_scripts W). avoid_steps.
  - intros s1 dom s2 Hrun.
    assert (is_Some dom) as [d ->].
    { unfold has_page_or_scripts in Hpre.
      destruct (ojson_truthy (field background "page")).
      - apply bind_resolved in Hrun as (? & ? & _ & Hrun).
        apply bind_resolved in Hrun as (? & ? & _ & Hrun).
        inversion Hrun; eauto.
      - apply bind_resolved in Hrun as (scripts & ? & Hs & Hrun).
        apply jget_resolved in Hs as (-> & -> & _).
        simpl in Hpre. rewrite Hpre in Hrun.
        apply bind_resolved in Hrun as (? & ? & _ & Hrun).
        apply bind_resolved in Hrun as (? & ? & _ & Hrun).
        apply bind_resolved in Hrun as (? & ? & _ & Hrun).
        inversion Hrun; eauto. }
    pose proof (avoids_optional_callback W). avoid_steps.
Qed.

Lemma buildBackground_undefined_dom W background manifestPath options s :
  background ≠ JNull →
  has_page_or_scripts background = false →
  (buildBackground W background manifestPath options s).1 = Rejected undefined_dom.
Proof.
  intros Hnull Hpre. unfold has_page_or_scripts in Hpre.
  apply orb_false_iff in Hpre as [Hpage Hscripts].
  unfold buildBackground. unfold bind at 1. rewrite default_object_run.
  unfold bind at 1, createBrowser. unfold bind at 1, alias_contextMenus, update_browser.
  unfold bind at 1. rewrite (jget_run _ _ _ Hnull). rewrite Hpage.
  unfold bind at 1. unfold bind at 1. rewrite (jget_run _ _ _ Hnull). rewrite Hscripts.
  reflexivity.
Qed.

Lemma declares_background_precondition manifest :
  declares_background manifest = true →
  ∃ mb, field manifest "background" = Some mb ∧ has_page_or_scripts mb = true.
Proof.
  unfold declares_background, has_page_or_scripts. intros H.
  destruct (field manifest "background") as [mb|]; [|discriminate].
  apply andb_true_iff in H as [_ H]. eauto.
Qed.

Lemma avoids_prepare_options options k :
  k ≠ "window" → avoids undefined_dom (prepare_options options k).
Proof. intros Hk. unfold prepare_options. avoid_steps. Qed.

Lemma avoids_manifest_declares_background manifest :
  avoids undefined_dom (manifest_declares_background manifest).
Proof. unfold manifest_declares_background. avoid_steps. Qed.

Lemma avoids_manifest_declares_popup manifest :
  avoids undefined_dom (manifest_declares_popup manifest).
Proof. unfold manifest_declares_popup. avoid_steps. Qed.

Lemma avoids_load_background W manifest manifestPath options we :
  avoids undefined_dom (load_background W manifest manifestPath options we).
Proof.
  unfold load_background.
  apply avoids_bind; [auto with avoid|]. intros ob.
  apply avoids_bind_with.
  { destruct (option_enabled ob);
      [apply avoids_manifest_declares_background | apply avoids_ret]. }
  intros s declared s' Hd.
  destruct declared; [|apply avoids_ret].
  assert (declares_background manifest = true) as Hdecl.
  { destruct (option_enabled ob); [|inversion Hd].
    now apply manifest_declares_background_resolved in Hd as [<- _]. }
  apply declares_background_precondition in Hdecl as (mb & Hmb & Hpre).
  apply avoids_bind; [apply avoids_prepare_options; discriminate|]. intros _.
  apply avoids_bind_with; [auto with avoid|]. intros s1 mb' s2 Hj.
  apply jget_resolved in Hj as (-> & -> & _). rewrite Hmb. simpl.
  apply avoids_bind; [auto with avoid|]. intros ob'.
  apply avoids_bind; [now apply avoids_buildBackground|]. intros c.
  apply avoids_ret.
Qed.

Lemma avoids_load_popup W manifest manifestPath options we :
  avoids undefined_dom (load_popup W manifest manifestPath options we).
Proof.
  unfold load_popup.
  pose proof (avoids_buildPopup W). pose proof avoids_prepare_options.
  pose proof avoids_manifest_declares_popup.
  avoid_steps.
Qed.

Lemma avoids_fromManifest W manifestPath options :
  avoids undefined_dom (fromManifest W manifestPath options).
Proof.
  unfold fromManifest, readFileSync, parse.
  pose proof (avoids_load_background W). pose proof (avoids_load_popup W).
  pose proof avoids_default_object.
  avoid_steps.
Qed.

(** C9. [buildBackground] needs a truthy [background.page] or
    [background.scripts]. With one of them, it never reaches [dom.window] on
    an undefined [dom], and when it resolves the context's [dom] is a DOM
    created by the call and its [document] is that DOM's document. With
    neither (on a background object, where the two reads do not throw) the
    read of [dom.window] throws a TypeError on the undefined [dom]. The guard
    of [fromManifest] implies the precondition for the background it passes,
    so [fromManifest] never fails with that error. *)
Theorem buildBackground_precondition W manifestPath :
  (∀ background options s,
     has_page_or_scripts background = true →
     (buildBackground W background manifestPath options s).1 ≠ Rejected undefined_dom
     ∧ ∀ c s', buildBackground W background manifestPath options s = (Resolved c, s') →
         doms s !! ctx_dom c = None
         ∧ is_Some (doms s' !! ctx_dom c)
         ∧ ctx_document c = window_document (ctx_dom c))
  ∧ (∀ background options s,
       background ≠ JNull →
       has_page_or_scripts background = false →
       (buildBackground W background manifestPath options s).1 = Rejected undefined_dom)
  ∧ (∀ manifest,
       declares_background manifest = true →
       ∃ mb, field manifest "background" = Some mb ∧ has_page_or_scripts mb = true)
  ∧ (∀ options s,
       (fromManifest W manifestPath options s).1 ≠ Rejected undefined_dom).
Proof.
  split; [|split; [|split]].
  - intros background options s Hpre. split.
    + now apply avoids_buildBackground.
    + intros c s' H.
      apply buildBackground_resolved in H
        as (src & srcs & codes & before & after & _ & _ & -> & ->).
      simpl. split; [apply lookup_ge_None_2; lia|].
      split; [|reflexivity]. rewrite lookup_fresh. eauto.
  - intros. now apply buildBackground_undefined_dom.
  - apply declares_background_precondition.
  - intros options s. apply avoids_fromManifest.
Qed.

Lemma buildBackground_precondition_witness :
  (buildBackground (Example.world Example.manifest_all) (JObj [("persistent", JBool true)])
     "/ext" VUndefined initial_state).1 = Rejected undefined_dom
  ∧ (buildBackground (Example.world Example.manifest_all)
       (JObj [("page", JStr "background.html")]) "/ext" VUndefined initial_state).1
    ≠ Rejected undefined_dom.
Proof.
  pose proof (buildBackground_precondition (Example.world Example.manifest_all) "/ext")
    as (Hwith & Hwithout & _ & _).
  split.
  - apply Hwithout; [discriminate | reflexivity].
  - apply (Hwith (JObj [("page", JStr "background.html")]) VUndefined initial_state).
    reflexivity.
Defined.

(** ** Isolation of the contexts *)



(** ** Paths *)

Lemma background_plan_inv W mb manifestPath src srcs :
  background_plan W mb manifestPath = Some (src, srcs) →
  if ojson_truthy (field mb "page")
  then ∃ page,
      field mb "page" = Some (JStr page)
      ∧ src = FromFile (path_resolve W [manifestPath; page])
      ∧ jsdom_fromFile W (path_resolve W [manifestPath; page]) = Some srcs
  else ∃ items scripts,
      field mb "scripts" ≫= iterated = Some items
      ∧ mapM json_string items = Some scripts
      ∧ src = FromHtml blank_page
      ∧ srcs = map (fun script => path_resolve W [path_join W [manifestPath; script]])
                   scripts.
Proof.
  unfold background_plan. intros H.
  destruct (ojson_truthy (field mb "page")).
  - destruct (field mb "page") as [[]|]; simpl in H; try discriminate.
    destruct (jsdom_fromFile W _) eqn:Hf; simpl in H; [|discriminate].
    inversion H; subst. eauto.
  - destruct (ojson_truthy (field mb "scripts")); [|discriminate].
    destruct (field mb "scripts" ≫= iterated) as [items|]; simpl in H; [|discriminate].
    destruct (mapM json_string items) as [scripts|] eqn:Hm; simpl in H; [|discriminate].
    inversion H; subst. exists items, scripts. auto.
Qed.

Lemma instrumented_in_build_events b d src srcs codes before after x :
  x ∈ srcs →
  EInstrument (strip_file_scheme x) ∈ build_events b d src srcs codes before after.
Proof.
  intros Hx. unfold build_events.
  apply elem_of_app; right. apply elem_of_app; right.
  apply elem_of_app; right. apply elem_of_app; left.
  unfold instrument_events. apply list_elem_of_fmap. eauto.
Qed.

(** C6. A resolved [fromManifest] has read the file [manifest.json] resolved
    against [manifestPath] and parsed its text into the manifest it works on.
    The background page is the file at [background.page] resolved against
    [manifestPath]; each background script is the file at the script's name
    joined to [manifestPath] and resolved, and that is the path handed to the
    instrumenter; the popup page is the file at
    [browser_action.default_popup] resolved against [manifestPath]. *)
Theorem fromManifest_resolves_against_manifestPath W manifestPath options s r s' :
  fromManifest W manifestPath options s = (Resolved r, s') →
  ∃ text manifest,
    fs_readFileSync W (path_resolve W [manifestPath; "manifest.json"]) = Some text
    ∧ JSON_parse W text = Some manifest
    ∧ EReadFile (path_resolve W [manifestPath; "manifest.json"]) ∈ trace s'
    ∧ (∀ c, r !! "background" = Some c →
         ∃ mb dm,
           field manifest "background" = Some mb
           ∧ doms s' !! ctx_dom c = Some dm
           ∧ if ojson_truthy (field mb "page")
             then ∃ page,
                 field mb "page" = Some (JStr page)
                 ∧ dom_source_of dm = FromFile (path_resolve W [manifestPath; page])
             else ∃ items scripts,
                 field mb "scripts" ≫= iterated = Some items
                 ∧ mapM json_string items = Some scripts
                 ∧ dom_source_of dm = FromHtml blank_page
                 ∧ ∀ script, script ∈ scripts →
                     EInstrument (strip_file_scheme
                        (path_resolve W [path_join W [manifestPath; script]]))
                       ∈ trace s')
    ∧ (∀ c, r !! "popup" = Some c →
         ∃ p dm,
           declared_popup manifest = Some p
           ∧ doms s' !! ctx_dom c = Some dm
           ∧ dom_source_of dm = FromFile (path_resolve W [manifestPath; p])).
Proof.
  intros H.
  apply fromManifest_resolved in H
    as (text & manifest & we1 & s1 & Hfs & Hparse & H1 & H2).
  exists text, manifest. split; [exact Hfs|]. split; [exact Hparse|].
  apply load_background_built in H1. apply load_popup_built in H2.
  assert (Hread : EReadFile (path_resolve W [manifestPath; "manifest.json"])
                    ∈ trace (started W manifestPath options s)).
  { simpl. apply elem_of_app; right. apply list_elem_of_singleton. reflexivity. }
  destruct (_ && _) in H1.
  - destruct H1 as (mb & src & srcs & codes & before & after & Hmb & Hplan & _ & -> & ->).
    apply background_plan_inv in Hplan.
    simpl in H2.
    destruct (_ && _) in H2.
    + destruct H2 as (p & srcs' & codes' & before' & after' & Hp & _ & _ & -> & ->).
      simpl. split; [|split].
      * apply elem_of_app; left. apply elem_of_app; left. exact Hread.
      * intros c Hc. split_key Hc. exists mb. eexists. split; [exact Hmb|].
        split; [apply lookup_first_of_two|]. simpl.
        destruct (ojson_truthy (field mb "page")).
        -- destruct Hplan as (page & Hpage & -> & _). eauto.
        -- destruct Hplan as (items & scripts & Hit & Hm & -> & ->).
           exists items, scripts. repeat split; try assumption.
           intros script Hs. apply elem_of_app; left. apply elem_of_app; right.
           apply instrumented_in_build_events.
           apply list_elem_of_fmap. eauto.
      * intros c Hc. split_key Hc. exists p. eexists. split; [exact Hp|].
        split; [apply lookup_fresh | reflexivity].
    + destruct H2 as [-> ->]. simpl. split; [|split].
      * apply elem_of_app; left. exact Hread.
      * intros c Hc. split_key Hc. exists mb. eexists. split; [exact Hmb|].
        split; [apply lookup_fresh|]. simpl.
        destruct (ojson_truthy (field mb "page")).
        -- destruct Hplan as (page & Hpage & -> & _). eauto.
        -- destruct Hplan as (items & scripts & Hit & Hm & -> & ->).
           exists items, scripts. repeat split; try assumption.
           intros script Hs. apply elem_of_app; right.
           apply instrumented_in_build_events.
           apply list_elem_of_fmap. eauto.
      * intros c Hc. split_key Hc.
  - destruct H1 as [-> ->].
    destruct (_ && _) in H2.
    + destruct H2 as (p & srcs' & codes' & before' & after' & Hp & _ & _ & -> & ->).
      simpl. split; [|split].
      * apply elem_of_app; left. exact Hread.
      * intros c Hc. split_key Hc.
      * intros c Hc. split_key Hc. exists p. eexists. split; [exact Hp|].
        split; [apply lookup_fresh | reflexivity].
    + destruct H2 as [-> ->]. split; [exact Hread|].
      split; intros c Hc; split_key Hc.
Qed.

(** ** The heap under [fromManifest] *)

Lemma valid_mono h h' v : length h ≤ length h' → valid h v → valid h' v.
Proof. destruct v; simpl; auto. lia. Qed.

Lemma length_assign h v key x : length (assign h v key x) = length h.
Proof. destruct v; simpl; auto. apply length_alter. Qed.

Lemma own_prop_app h t v key : valid h v → own_prop (h ++ t) v key = own_prop h v key.
Proof. destruct v; simpl; auto. intros Hl. now rewrite lookup_app_l. Qed.

Lemma own_prop_assign_other h v key x v' key' :
  v ≠ v' ∨ key ≠ key' → own_prop (assign h v key x) v' key' = own_prop h v' key'.
Proof.
  intros Hne. destruct v; simpl; auto. destruct v'; simpl; auto.
  destruct (decide (l = l0)) as [->|Hl].
  - rewrite list_lookup_alter_eq. destruct (h !! l0) as [o|]; simpl; [|reflexivity].
    rewrite lookup_insert_ne; [reflexivity|]. destruct Hne; congruence.
  - now rewrite list_lookup_alter_ne.
Qed.

Lemma own_prop_assign_same h l key x :
  l < length h → own_prop (assign h (VRef l) key x) (VRef l) key = x.
Proof.
  intros Hl. simpl. rewrite list_lookup_alter_eq.
  destruct (lookup_lt_is_Some_2 h l Hl) as [o ->]. simpl.
  now rewrite lookup_insert_eq.
Qed.

Lemma typeof_app h t v : valid h v → typeof (h ++ t) v = typeof h v.
Proof. destruct v; simpl; auto. intros Hl. now rewrite lookup_app_l. Qed.

Lemma typeof_assign h v key x v' : typeof (assign h v key x) v' = typeof h v'.
Proof.
  destruct v; simpl; auto. destruct v'; simpl; auto.
  destruct (decide (l = l0)) as [->|Hl].
  - rewrite list_lookup_alter_eq. now destruct (h !! l0).
  - now rewrite list_lookup_alter_ne.
Qed.

Lemma typeof_dangling h l : length h ≤ l → typeof h (VRef l) = TObject.
Proof. intros Hl. simpl. now rewrite lookup_ge_None_2. Qed.

Lemma own_prop_dangling h l key : length h ≤ l → own_prop h (VRef l) key = VUndefined.
Proof. intros Hl. simpl. now rewrite lookup_ge_None_2. Qed.

Lemma options_frame_refl l h : options_frame l h h.
Proof.
  split; auto.
  - intros i Hi. now apply typeof_dangling.
  - intros i key Hi _. now apply own_prop_dangling.
Qed.

Lemma options_frame_apiFake l h h' :
  l < length h → options_frame l h h' →
  own_prop h' (VRef l) "apiFake" = own_prop h (VRef l) "apiFake".
Proof.
  intros Hl [_ _ _ _ Hp].
  destruct (Hp l "apiFake" Hl) as [H|[(_ & _ & H)|(_ & [H|H] & _)]];
    auto; discriminate.
Qed.

Lemma options_frame_trans l h h' h'' :
  l < length h →
  options_frame l h h' → options_frame l h' h'' → options_frame l h h''.
Proof.
  intros Hl H1 H2.
  pose proof (options_frame_apiFake l h h' Hl H1) as Haf.
  destruct H1 as [Hlen1 Hty1 Hpl1 Hfr1 Hp1]. destruct H2 as [Hlen2 Hty2 Hpl2 Hfr2 Hp2].
  split.
  - lia.
  - intros v Hv. rewrite Hty2 by (eapply valid_mono; eauto). now apply Hty1.
  - intros i Hi. destruct (decide (i < length h')) as [Hi'|Hi'].
    + rewrite Hty2 by (simpl; lia). now apply Hpl1.
    + apply Hpl2. lia.
  - intros i key Hi Hk. destruct (decide (i < length h')) as [Hi'|Hi'].
    + destruct (Hp2 i key Hi') as [H|[(-> & _)|(-> & [->| ->] & _)]];
        try congruence.
      * rewrite H. now apply Hfr1.
      * lia.
      * lia.
    + apply Hfr2; [lia | assumption].
  - intros i key Hi.
    destruct (Hp2 i key ltac:(lia)) as [H2|[(-> & Hne & H2)|(-> & Hk & Hty & t & Ht & Hlt)]].
    + destruct (Hp1 i key Hi)
        as [H1|[(-> & Hne & H1)|(-> & Hk & Hty & t & Ht & Hlt)]].
      * left. congruence.
      * right; left. repeat split; auto; congruence.
      * right; right. repeat split; auto. exists t. split; [congruence | lia].
    + right; left. rewrite Haf in Hne, H2. auto.
    + right; right. split; [reflexivity|]. split; [assumption|].
      assert (Hkey : key ≠ "apiFake") by (destruct Hk; subst; discriminate).
      destruct (Hp1 l key Hl) as [H1|[(-> & _)|(_ & _ & Hty0 & _)]]; try congruence.
      * split; [|exists t; split; [assumption | lia]].
        rewrite H1 in Hty. intros Hobj. apply Hty.
        destruct (own_prop h (VRef l) key) as [| | | | |j] eqn:Hv; try exact Hobj.
        destruct (decide (j < length h)) as [Hj|Hj].
        -- rewrite Hty1 by exact Hj. exact Hobj.
        -- apply Hpl1. lia.
      * split; [assumption|]. exists t. split; [assumption | lia].
Qed.

Lemma options_frame_extend l h h' :
  h `prefix_of` h' →
  (∀ i o, length h ≤ i → h' !! i = Some o → o = empty_object) →
  options_frame l h h'.
Proof.
  intros [t ->] Hnew. split.
  - rewrite length_app. lia.
  - intros v Hv. now apply typeof_app.
  - intros i Hi. simpl. destruct ((h ++ t) !! i) as [o|] eqn:Ho; [|reflexivity].
    now rewrite (Hnew i o Hi Ho).
  - intros i key Hi _. simpl. destruct ((h ++ t) !! i) as [o|] eqn:Ho; [|reflexivity].
    rewrite (Hnew i o Hi Ho). simpl. now rewrite lookup_empty.
  - intros i key Hi. left. now apply own_prop_app.
Qed.

Lemma frame_options_frame l s0 k s :
  frame s0 k s → options_frame l (heap s0) (heap s).
Proof. intros [Hh Hp _ _ _ _]. now apply options_frame_extend. Qed.

Lemma options_frame_assign_apiFake l h v :
  l < length h →
  own_prop h (VRef l) "apiFake" ≠ VUndefined →
  options_frame l h (assign h v "apiFake" (own_prop h (VRef l) "apiFake")).
Proof.
  intros Hl Haf. split.
  - now rewrite length_assign.
  - intros v' _. apply typeof_assign.
  - intros i Hi. rewrite typeof_assign. now apply typeof_dangling.
  - intros i key Hi Hk. rewrite own_prop_assign_other by (right; congruence).
    now apply own_prop_dangling.
  - intros i key Hi.
    destruct (decide (v = VRef i ∧ key = "apiFake")) as [[-> ->]|Hne].
    + right; left. split; [reflexivity|]. split; [assumption|].
      now apply own_prop_assign_same.
    + left. apply own_prop_assign_other.
      destruct (decide (v = VRef i)); [right|left]; [|assumption].
      intros E. subst. apply Hne. auto.
Qed.

Lemma options_frame_replaced l h k :
  l < length h → k = "background" ∨ k = "popup" →
  options_frame l h (replaced_heap h (VRef l) k).
Proof.
  intros Hl Hk. unfold replaced_heap.
  destruct (decide (typeof h (own_prop h (VRef l) k) = TObject)) as [Ht|Ht];
    [apply options_frame_refl|].
  assert (Hnew : ∀ i key, length h ≤ i →
            own_prop (h ++ [empty_object]) (VRef i) key = VUndefined).
  { intros i key Hi. simpl.
    destruct (decide (i = length h)) as [->|Hne].
    - rewrite lookup_fresh. simpl. now rewrite lookup_empty.
    - rewrite lookup_ge_None_2; [reflexivity|]. rewrite length_app; simpl; lia. }
  split.
  - rewrite length_assign, length_app. lia.
  - intros v Hv. rewrite typeof_assign. now apply typeof_app.
  - intros i Hi. rewrite typeof_assign. simpl.
    destruct (decide (i = length h)) as [->|Hne].
    + now rewrite lookup_fresh.
    + rewrite lookup_ge_None_2; [reflexivity|]. rewrite length_app; simpl; lia.
  - intros i key Hi _. rewrite own_prop_assign_other; [now apply Hnew|].
    left. intros E. inversion E. lia.
  - intros i key Hi.
    destruct (decide (i = l ∧ key = k)) as [[-> ->]|Hne].
    + right; right. split; [reflexivity|]. split; [assumption|]. split; [assumption|].
      exists (length h). split; [|lia].
      apply own_prop_assign_same. rewrite length_app; simpl; lia.
    + left. rewrite own_prop_assign_other; [now apply own_prop_app|].
      destruct (decide (i = l)) as [->|Hil]; [right|left].
      * intros E. subst. apply Hne. auto.
      * congruence.
Qed.

Lemma options_frame_prepared l h k :
  l < length h → k = "background" ∨ k = "popup" →
  options_frame l h (prepared_heap h (VRef l) k).
Proof.
  intros Hl Hk. unfold prepared_heap.
  pose proof (options_frame_replaced l h k Hl Hk) as H1.
  set (h1 := replaced_heap h (VRef l) k) in *.
  destruct (decide (own_prop h1 (VRef l) "apiFake" = VUndefined)) as [Ha|Ha]; [exact H1|].
  assert (Hl1 : l < length h1) by (destruct H1 as [Hlen _ _ _ _]; lia).
  eapply options_frame_trans; [exact Hl | exact H1 |].
  now apply options_frame_assign_apiFake.
Qed.

Lemma own_prop_replaced_other h l k v key :
  valid h v → VRef l ≠ v ∨ k ≠ key →
  own_prop (replaced_heap h (VRef l) k) v key = own_prop h v key.
Proof.
  intros Hv Hne. unfold replaced_heap.
  destruct (decide _); [reflexivity|].
  rewrite own_prop_assign_other by assumption. now apply own_prop_app.
Qed.

Lemma length_replaced_heap h o k : length h ≤ length (replaced_heap h o k).
Proof.
  unfold replaced_heap. destruct (decide _); [lia|].
  rewrite length_assign, length_app. lia.
Qed.

Lemma length_prepared_heap h o k : length h ≤ length (prepared_heap h o k).
Proof.
  unfold prepared_heap. pose proof (length_replaced_heap h o k).
  destruct (decide _); [assumption|]. now rewrite length_assign.
Qed.

Lemma option_ready_prepared h l k :
  l < length h → k = "background" ∨ k = "popup" →
  valid h (own_prop h (VRef l) k) →
  own_prop h (VRef l) k ≠ VNull →
  option_ready (own_prop h (VRef l) "apiFake") l k (prepared_heap h (VRef l) k).
Proof.
  intros Hl Hk Hvalid Hnull.
  assert (Hka : k ≠ "apiFake") by (destruct Hk; subst; discriminate).
  assert (Haf1 : own_prop (replaced_heap h (VRef l) k) (VRef l) "apiFake"
                 = own_prop h (VRef l) "apiFake")
    by (apply own_prop_replaced_other; [exact Hl | right; exact Hka]).
  assert (∃ t, own_prop (replaced_heap h (VRef l) k) (VRef l) k = VRef t
               ∧ t < length (replaced_heap h (VRef l) k)) as (t & Ht & Hlt).
  { unfold replaced_heap.
    destruct (decide (typeof h (own_prop h (VRef l) k) = TObject)) as [Hty|Hty].
    - destruct (own_prop h (VRef l) k) as [| | | | |t] eqn:Hv;
        try discriminate; try congruence. eauto.
    - exists (length h). split.
      + apply own_prop_assign_same. rewrite length_app; simpl; lia.
      + rewrite length_assign, length_app; simpl; lia. }
  unfold prepared_heap, option_ready. rewrite Haf1.
  set (h1 := replaced_heap h (VRef l) k) in *.
  destruct (decide (own_prop h (VRef l) "apiFake" = VUndefined)) as [Ha|Ha].
  - exists t. rewrite Ht. repeat split; auto. congruence.
  - rewrite Ht. exists t.
    rewrite own_prop_assign_other by (right; congruence).
    rewrite Ht. rewrite length_assign. repeat split; auto.
    intros _. now apply own_prop_assign_same.
Qed.

Lemma option_ready_prepared_other af h l k k' :
  l < length h → k ≠ k' → k ≠ "apiFake" → k' ≠ "apiFake" →
  own_prop h (VRef l) "apiFake" = af →
  option_ready af l k h →
  option_ready af l k (prepared_heap h (VRef l) k').
Proof.
  intros Hl Hkk Hka Hka' Haf (t & Ht & Hlt & Hfake).
  assert (Haf1 : own_prop (replaced_heap h (VRef l) k') (VRef l) "apiFake" = af).
  { rewrite own_prop_replaced_other; [exact Haf | exact Hl | right; exact Hka']. }
  assert (Ht1 : own_prop (replaced_heap h (VRef l) k') (VRef l) k = VRef t).
  { rewrite own_prop_replaced_other; [exact Ht | exact Hl | right; congruence]. }
  assert (Hf1 : af ≠ VUndefined →
                own_prop (replaced_heap h (VRef l) k') (VRef t) "apiFake" = af).
  { intros Hd. rewrite own_prop_replaced_other; [auto | exact Hlt | right; exact Hka']. }
  pose proof (length_replaced_heap h (VRef l) k') as Hlen.
  unfold prepared_heap, option_ready. rewrite Haf1.
  set (h1 := replaced_heap h (VRef l) k') in *.
  destruct (decide (af = VUndefined)) as [Ha|Ha].
  - exists t. rewrite Ht1. repeat split; auto; try lia; congruence.
  - exists t. rewrite own_prop_assign_other by (right; congruence).
    rewrite Ht1, length_assign. repeat split; auto; try lia.
    intros _.
    destruct (decide (own_prop h1 (VRef l) k' = VRef t)) as [E|E].
    + rewrite E. apply own_prop_assign_same. lia.
    + rewrite own_prop_assign_other by (left; exact E). auto.
Qed.

Lemma own_prop_prepared_other h o k key :
  valid h o → key ≠ k → key ≠ "apiFake" →
  own_prop (prepared_heap h o k) o key = own_prop h o key.
Proof.
  intros Hv Hk Ha. destruct o as [| | | | |l]; try reflexivity.
  unfold prepared_heap. destruct (decide _).
  - apply own_prop_replaced_other; [exact Hv | right; congruence].
  - rewrite own_prop_assign_other by (right; congruence).
    apply own_prop_replaced_other; [exact Hv | right; congruence].
Qed.

Lemma own_prop_defaulted h x v key :
  valid h v → own_prop (defaulted_heap h x) v key = own_prop h v key.
Proof. intros Hv. destruct x; simpl defaulted_heap; auto using own_prop_app. Qed.

Lemma valid_defaulted h v : valid h v → valid (defaulted_heap h v) (defaulted h v).
Proof.
  destruct v; simpl; auto. rewrite length_app; simpl; lia.
Qed.

(** ** Which contexts a result holds *)

(** C5, as the code has it. With [options] a value of the heap, the resolved
    result holds a background context exactly when [options.background] is
    undefined or truthy and the manifest's [background] is truthy with a
    truthy [page] or [scripts]; it holds a popup context exactly when
    [options.popup] is undefined or truthy and the manifest's
    [browser_action] is truthy with a truthy [default_popup]. *)
Theorem fromManifest_contexts_iff W manifestPath options s r s' text manifest :
  valid (heap s) options →
  fromManifest W manifestPath options s = (Resolved r, s') →
  fs_readFileSync W (path_resolve W [manifestPath; "manifest.json"]) = Some text →
  JSON_parse W text = Some manifest →
  let h := defaulted_heap (heap s) options in
  let o := defaulted (heap s) options in
  (is_Some (r !! "background")
   ↔ option_enabled (own_prop h o "background") = true
     ∧ declares_background manifest = true)
  ∧ (is_Some (r !! "popup")
     ↔ option_enabled (own_prop h o "popup") = true
       ∧ declares_popup manifest = true).
Proof.
  intros Hvalid H Hfs Hparse h o.
  apply fromManifest_resolved in H
    as (text' & manifest' & we1 & s1 & Hfs' & Hparse' & H1 & H2).
  rewrite Hfs in Hfs'. inversion Hfs'; subst text'; clear Hfs'.
  rewrite Hparse in Hparse'. inversion Hparse'; subst manifest'; clear Hparse'.
  fold o in H1, H2.
  assert (Ho : valid h o) by now apply valid_defaulted.
  apply load_background_built in H1. apply load_popup_built in H2.
  simpl heap in H1. fold h in H1.
  destruct (option_enabled (own_prop h o "background") && declares_background manifest)
    eqn:Hgb.
  - destruct H1 as (mb & src & srcs & codes & before & after & _ & _ & _ & -> & ->).
    simpl heap in H2.
    rewrite own_prop_defaulted in H2
      by (eapply valid_mono; [apply length_prepared_heap | exact Ho]).
    rewrite own_prop_prepared_other in H2 by (auto; discriminate).
    rewrite <- !andb_true_iff, Hgb.
    destruct (option_enabled (own_prop h o "popup") && declares_popup manifest).
    + destruct H2 as (p & srcs' & codes' & before' & after' & _ & _ & _ & -> & _).
      rewrite lookup_insert_ne by discriminate. rewrite !lookup_insert_eq.
      split; split; eauto.
    + destruct H2 as [-> _].
      rewrite lookup_insert_eq. rewrite lookup_insert_ne by discriminate.
      rewrite lookup_empty. split; split; eauto; try discriminate.
      intros [? ?]; discriminate.
  - destruct H1 as [-> ->]. simpl heap in H2. fold h in H2.
    rewrite <- !andb_true_iff, Hgb.
    destruct (option_enabled (own_prop h o "popup") && declares_popup manifest).
    + destruct H2 as (p & srcs' & codes' & before' & after' & _ & _ & _ & -> & _).
      rewrite lookup_insert_ne by discriminate. rewrite lookup_insert_eq.
      rewrite lookup_empty. split; split; eauto; try discriminate.
      intros [? ?]; discriminate.
    + destruct H2 as [-> _]. rewrite !lookup_empty.
      split; split; try discriminate; intros [? ?]; discriminate.
Qed.

(** ** What [fromManifest] does to its [options] *)

Section OptionsFrame.

Variable W : World.
Variable h0 : list Obj.
Variable l : nat.
Hypothesis l_valid : l < length h0.

Lemma within_heap_same {A} (m : M A) :
  (∀ s, heap (m s).2 = heap s) → preserves (within h0 l) m.
Proof. intros H s Hs. unfold within. now rewrite H. Qed.

Lemma within_frame {A} (m : M A) k :
  (∀ s, frame s k (m s).2) → preserves (within h0 l) m.
Proof.
  intros H s Hs. unfold within in *.
  eapply options_frame_trans; [exact l_valid | exact Hs |].
  eapply frame_options_frame. apply H.
Qed.

Lemma within_prepare_options k :
  k = "background" ∨ k = "popup" → preserves (within h0 l) (prepare_options (VRef l) k).
Proof.
  intros Hk s Hs. unfold within in *.
  rewrite prepare_options_state by reflexivity. simpl.
  eapply options_frame_trans; [exact l_valid | exact Hs |].
  apply options_frame_prepared; [|exact Hk].
  destruct Hs as [Hlen _ _ _ _]. lia.
Qed.

Lemma within_buildBackground background manifestPath options :
  preserves (within h0 l) (buildBackground W background manifestPath options).
Proof.
  apply (within_frame _ "popup"). intros s.
  apply keeps_buildBackground; [discriminate | apply frame_refl].
Qed.

Lemma within_buildPopup popupPath options :
  preserves (within h0 l) (buildPopup W popupPath options).
Proof.
  apply (within_frame _ "background"). intros s.
  apply keeps_buildPopup; [discriminate | apply frame_refl].
Qed.

Lemma within_load_background manifest manifestPath we :
  preserves (within h0 l) (load_background W manifest manifestPath (VRef l) we).
Proof.
  unfold load_background.
  pose proof within_buildBackground. pose proof (within_prepare_options "background").
  frame_steps.
Qed.

Lemma within_load_popup manifest manifestPath we :
  preserves (within h0 l) (load_popup W manifest manifestPath (VRef l) we).
Proof.
  unfold load_popup.
  pose proof within_buildPopup. pose proof (within_prepare_options "popup").
  frame_steps.
Qed.

Lemma within_fromManifest manifestPath :
  preserves (within h0 l) (fromManifest W manifestPath (VRef l)).
Proof.
  unfold fromManifest, readFileSync.
  pose proof within_load_background. pose proof within_load_popup.
  assert (preserves (within h0 l) new_instance) by (apply within_heap_same; reflexivity).
  assert (∀ e, preserves (within h0 l) (emit e)) by (intros; apply within_heap_same; reflexivity).
  apply (preserves_bind_returns _ _ _ (fun o => o = VRef l)).
  - apply reads_preserves, reads_ret.
  - intros s a s' _ E. now inversion E.
  - intros a ->. frame_steps.
Qed.

End OptionsFrame.

Lemma option_enabled_not_null v : option_enabled v = true → v ≠ VNull.
Proof. intros H ->. discriminate. Qed.

(** A resolved [fromManifest] on an options object, end to end. *)
Lemma fromManifest_on_options W manifestPath l s r s' :
  options_object (heap s) l →
  fromManifest W manifestPath (VRef l) s = (Resolved r, s') →
  ∃ manifest,
    let o := VRef l in
    let h := heap s in
    let gb := option_enabled (own_prop h o "background") && declares_background manifest in
    let gp := option_enabled (own_prop h o "popup") && declares_popup manifest in
    let h1 := if gb then prepared_heap h o "background" else h in
    let h2 := if gp then prepared_heap h1 o "popup" else h1 in
    heap s' = h2
    ∧ (∀ k, is_Some (r !! k) → k = "background" ∨ k = "popup")
    ∧ (is_Some (r !! "background") ↔ gb = true)
    ∧ (is_Some (r !! "popup") ↔ gp = true)
    ∧ (∀ c, r !! "background" = Some c →
         ∃ br, browsers s' !! ctx_browser c = Some br
               ∧ fakeApi_applied br
                 = truthy (own_prop h1 (own_prop h1 o "background") "apiFake"))
    ∧ (∀ c, r !! "popup" = Some c →
         ∃ br, browsers s' !! ctx_browser c = Some br
               ∧ fakeApi_applied br
                 = truthy (own_prop h2 (own_prop h2 o "popup") "apiFake")).
Proof.
  intros (Hl & Hvb & Hvp) H.
  apply fromManifest_resolved in H as (text & manifest & we1 & s1 & _ & _ & H1 & H2).
  exists manifest. simpl defaulted in H1, H2.
  apply load_background_built in H1. apply load_popup_built in H2.
  simpl heap in H1. simpl defaulted_heap in H1. cbv zeta.
  destruct (option_enabled (own_prop (heap s) (VRef l) "background")
            && declares_background manifest) eqn:Hgb.
  - destruct H1 as (mb & src & srcs & codes & before & after & _ & _ & _ & -> & ->).
    apply andb_true_iff in Hgb as [Hen _]. apply option_enabled_not_null in Hen.
    destruct (option_ready_prepared (heap s) l "background" Hl (or_introl eq_refl) Hvb Hen)
      as (t & Ht & Hlt & _).
    cbn [heap browsers doms webExtension] in H2. rewrite Ht in H2.
    change (defaulted_heap (prepared_heap (heap s) (VRef l) "background") (VRef t))
      with (prepared_heap (heap s) (VRef l) "background") in H2.
    set (h1 := prepared_heap (heap s) (VRef l) "background") in *.
    assert (Hl1 : l < length h1)
      by (pose proof (length_prepared_heap (heap s) (VRef l) "background");
          unfold h1; lia).
    assert (Hpop1 : own_prop h1 (VRef l) "popup" = own_prop (heap s) (VRef l) "popup")
      by (apply own_prop_prepared_other; [exact Hl | discriminate | discriminate]).
    rewrite Hpop1 in H2.
    destruct (option_enabled (own_prop (heap s) (VRef l) "popup")
              && declares_popup manifest) eqn:Hgp.
    + destruct H2 as (p & srcs' & codes' & before' & after' & _ & _ & _ & -> & ->).
      apply andb_true_iff in Hgp as [Hen' _]. apply option_enabled_not_null in Hen'.
      rewrite <- Hpop1 in Hen'.
      assert (Hvp1 : valid h1 (own_prop h1 (VRef l) "popup")).
      { rewrite Hpop1. eapply valid_mono; [|exact Hvp].
        apply length_prepared_heap. }
      destruct (option_ready_prepared h1 l "popup" Hl1 (or_intror eq_refl) Hvp1 Hen')
        as (t' & Ht' & Hlt' & _).
      cbn [heap browsers]. rewrite Ht'.
      split; [reflexivity|].
      split; [intros k [c Hc]; split_key Hc; auto|].
      split; [rewrite lookup_insert_ne by discriminate; rewrite lookup_insert_eq;
              split; eauto|].
      split; [rewrite lookup_insert_eq; split; eauto|].
      split.
      * intros c Hc. split_key Hc. cbn [ctx_browser]. rewrite lookup_first_of_two.
        eexists. split; [reflexivity|]. cbn [built_browser fakeApi_applied].
        now rewrite Ht.
      * intros c Hc. split_key Hc. cbn [ctx_browser]. rewrite lookup_fresh.
        eexists. split; reflexivity.
    + destruct H2 as [-> ->]. cbn [heap browsers].
      split; [reflexivity|].
      split; [intros k [c Hc]; split_key Hc; auto|].
      split; [rewrite lookup_insert_eq; split; eauto|].
      split; [rewrite lookup_insert_ne by discriminate; rewrite lookup_empty;
              split; [intros [? ?]|]; discriminate|].
      split.
      * intros c Hc. split_key Hc. cbn [ctx_browser]. rewrite lookup_fresh.
        eexists. split; [reflexivity|]. cbn [built_browser fakeApi_applied].
        now rewrite Ht.
      * intros c Hc. split_key Hc.
  - destruct H1 as [-> ->]. cbn [heap browsers doms webExtension started] in H2.
    change (defaulted_heap (heap s) (VRef l)) with (heap s) in H2.
    destruct (option_enabled (own_prop (heap s) (VRef l) "popup")
              && declares_popup manifest) eqn:Hgp.
    + destruct H2 as (p & srcs' & codes' & before' & after' & _ & _ & _ & -> & ->).
      apply andb_true_iff in Hgp as [Hen' _]. apply option_enabled_not_null in Hen'.
      destruct (option_ready_prepared (heap s) l "popup" Hl (or_intror eq_refl) Hvp Hen')
        as (t' & Ht' & Hlt' & _).
      cbn [heap browsers]. rewrite Ht'.
      split; [reflexivity|].
      split; [intros k [c Hc]; split_key Hc; auto|].
      split; [rewrite lookup_insert_ne by discriminate; rewrite lookup_empty;
              split; [intros [? ?]|]; discriminate|].
      split; [rewrite lookup_insert_eq; split; eauto|].
      split.
      * intros c Hc. split_key Hc.
      * intros c Hc. split_key Hc. cbn [ctx_browser]. rewrite lookup_fresh.
        eexists. split; reflexivity.
    + destruct H2 as [-> ->]. cbn [heap started].
      split; [reflexivity|].
      split; [intros k [c Hc]; split_key Hc|]. rewrite !lookup_empty.
      split; [split; [intros [? ?]|]; discriminate|].
      split; [split; [intros [? ?]|]; discriminate|].
      split; intros c Hc; split_key Hc.
Qed.

Lemma own_prop_prepared_apiFake h l k :
  l < length h → k = "background" ∨ k = "popup" →
  own_prop (prepared_heap h (VRef l) k) (VRef l) "apiFake"
  = own_prop h (VRef l) "apiFake".
Proof.
  intros Hl Hk. apply options_frame_apiFake; [exact Hl|].
  now apply options_frame_prepared.
Qed.

Lemma own_prop_prepared_fresh h l k :
  l < length h → k ≠ "apiFake" →
  typeof h (own_prop h (VRef l) k) ≠ TObject →
  own_prop (prepared_heap h (VRef l) k) (VRef l) k = VRef (length h).
Proof.
  intros Hl Hk Hty. unfold prepared_heap.
  assert (own_prop (replaced_heap h (VRef l) k) (VRef l) k = VRef (length h)) as Hr.
  { unfold replaced_heap. destruct (decide _); [contradiction|].
    apply own_prop_assign_same. rewrite length_app; simpl; lia. }
  destruct (decide _); [exact Hr|].
  rewrite own_prop_assign_other by (right; congruence). exact Hr.
Qed.

Lemma typeof_prepared h l k v :
  l < length h → k = "background" ∨ k = "popup" → valid h v →
  typeof (prepared_heap h (VRef l) k) v = typeof h v.
Proof.
  intros Hl Hk Hv. now apply (of_typeof l h _ (options_frame_prepared l h k Hl Hk)).
Qed.

(** The options object after a resolved [fromManifest], key by key. *)
Lemma fromManifest_options_after W manifestPath l s r s' k :
  options_object (heap s) l →
  fromManifest W manifestPath (VRef l) s = (Resolved r, s') →
  k = "background" ∨ k = "popup" →
  let o := VRef l in
  let h := heap s in
  let af := own_prop h o "apiFake" in
  (is_Some (r !! k) → option_ready af l k (heap s'))
  ∧ (is_Some (r !! k) → typeof h (own_prop h o k) ≠ TObject →
       ∃ t, own_prop (heap s') o k = VRef t ∧ length h ≤ t)
  ∧ (r !! k = None → own_prop (heap s') o k = own_prop h o k)
  ∧ (af ≠ VUndefined → ∀ c, r !! k = Some c →
       ∃ br, browsers s' !! ctx_browser c = Some br
             ∧ fakeApi_applied br = truthy af).
Proof.
  intros Hopt H Hk. cbv zeta.
  pose proof Hopt as (Hl & Hvb & Hvp).
  destruct (fromManifest_on_options W manifestPath l s r s' Hopt H)
    as (manifest & Hheap & _ & Hbg & Hpop & Hfb & Hfp).
  cbv zeta in Hheap, Hbg, Hpop, Hfb, Hfp.
  remember (heap s) as h eqn:Eh.
  remember (own_prop h (VRef l) "apiFake") as af eqn:Eaf.
  remember (option_enabled (own_prop h (VRef l) "background")
            && declares_background manifest) as gb eqn:Egb.
  remember (option_enabled (own_prop h (VRef l) "popup")
            && declares_popup manifest) as gp eqn:Egp.
  remember (if gb then prepared_heap h (VRef l) "background" else h) as h1 eqn:Eh1.
  assert (Hlen1 : length h ≤ length h1).
  { subst h1. destruct gb; [|lia]. apply length_prepared_heap. }
  assert (Hl1 : l < length h1) by lia.
  assert (Haf1 : own_prop h1 (VRef l) "apiFake" = af).
  { subst h1 af. destruct gb; [|reflexivity].
    apply own_prop_prepared_apiFake; auto. }
  assert (Hpop1 : own_prop h1 (VRef l) "popup" = own_prop h (VRef l) "popup").
  { subst h1. destruct gb; [|reflexivity].
    apply own_prop_prepared_other; [exact Hl | discriminate | discriminate]. }
  assert (Hvp1 : valid h1 (own_prop h1 (VRef l) "popup")).
  { rewrite Hpop1. eapply valid_mono; [|exact Hvp]. lia. }
  assert (Hty1 : typeof h1 (own_prop h (VRef l) "popup")
                 = typeof h (own_prop h (VRef l) "popup")).
  { subst h1. destruct gb; [|reflexivity]. apply typeof_prepared; auto. }
  assert (Hready_bg : gb = true → option_ready af l "background" h1).
  { intros E. subst h1 af. rewrite E.
    apply option_ready_prepared; auto.
    apply option_enabled_not_null. rewrite E in Egb. symmetry in Egb.
    now apply andb_true_iff in Egb as [Egb _]. }
  assert (Hready_pop : gp = true →
            option_ready af l "popup" (prepared_heap h1 (VRef l) "popup")).
  { intros E. rewrite <- Haf1.
    apply option_ready_prepared; auto.
    apply option_enabled_not_null. rewrite Hpop1. rewrite E in Egp. symmetry in Egp.
    now apply andb_true_iff in Egp as [Egp _]. }
  rewrite Hheap.
  destruct Hk as [-> | ->].
  - (* background *)
    split; [|split; [|split]].
    + intros Hs. apply Hbg in Hs. specialize (Hready_bg Hs).
      destruct gp; [|exact Hready_bg].
      apply option_ready_prepared_other; auto; discriminate.
    + intros Hs Hty. apply Hbg in Hs.
      assert (own_prop h1 (VRef l) "background" = VRef (length h)) as E.
      { subst h1. rewrite Hs. apply own_prop_prepared_fresh; auto; discriminate. }
      exists (length h). split; [|lia].
      destruct gp; [|exact E].
      rewrite own_prop_prepared_other; [exact E | exact Hl1 | discriminate | discriminate].
    + intros Hn.
      assert (gb = false) as E.
      { destruct gb; [|reflexivity]. destruct Hbg as [_ Hbg].
        destruct (Hbg eq_refl) as [c Hc]. congruence. }
      assert (h1 = h) as E1 by (subst h1; now rewrite E).
      destruct gp; [|now rewrite E1].
      rewrite own_prop_prepared_other; [now rewrite E1 | exact Hl1 | discriminate | discriminate].
    + intros Haf c Hc.
      destruct (Hfb c Hc) as (br & Hbr & Hflag). exists br. split; [exact Hbr|].
      rewrite Hflag.
      assert (Hs : gb = true) by (apply Hbg; eauto).
      destruct (Hready_bg Hs) as (t & Ht & _ & Hf). rewrite Ht. now rewrite Hf.
  - (* popup *)
    split; [|split; [|split]].
    + intros Hs. apply Hpop in Hs. rewrite Hs. now apply Hready_pop.
    + intros Hs Hty. apply Hpop in Hs. rewrite Hs.
      exists (length h1). split; [|exact Hlen1].
      apply own_prop_prepared_fresh; [exact Hl1 | discriminate |].
      rewrite Hpop1, Hty1. exact Hty.
    + intros Hn.
      assert (gp = false) as E.
      { destruct gp; [|reflexivity]. destruct Hpop as [_ Hpop].
        destruct (Hpop eq_refl) as [c Hc]. congruence. }
      rewrite E. exact Hpop1.
    + intros Haf c Hc.
      destruct (Hfp c Hc) as (br & Hbr & Hflag). exists br. split; [exact Hbr|].
      rewrite Hflag.
      assert (Hs : gp = true) by (apply Hpop; eauto).
      rewrite Hs.
      destruct (Hready_pop Hs) as (t & Ht & _ & Hf). rewrite Ht. now rewrite Hf.
Qed.

(** ** Stubbing the extension API *)

(** C8. Every resolved build, of the background or of the popup, has set
    [window.browser] to its own new stub before parsing and has applied the
    fake layer to that stub exactly when the [apiFake] of its options is
    truthy. A defined top-level [apiFake] given to [fromManifest] in an
    options object is copied to the options of every build it makes: in the
    end [options.background.apiFake] and [options.popup.apiFake] hold it for
    the contexts built, and the fakes were applied to their stubs exactly
    when it is truthy. *)
Theorem api_stubbing W manifestPath :
  (∀ background options s c s',
     buildBackground W background manifestPath options s = (Resolved c, s') →
     stubbed s s' c (apiFake_option s options))
  ∧ (∀ popupPath options s c s',
       buildPopup W popupPath options s = (Resolved c, s') →
       stubbed s s' c (apiFake_option s options))
  ∧ (∀ l s r s',
       options_object (heap s) l →
       fromManifest W manifestPath (VRef l) s = (Resolved r, s') →
       own_prop (heap s) (VRef l) "apiFake" ≠ VUndefined →
       ∀ k c, r !! k = Some c →
         own_prop (heap s') (own_prop (heap s') (VRef l) k) "apiFake"
         = own_prop (heap s) (VRef l) "apiFake"
         ∧ ∃ br, browsers s' !! ctx_browser c = Some br
                 ∧ fakeApi_applied br = truthy (own_prop (heap s) (VRef l) "apiFake")).
Proof.
  split; [|split].
  - intros background options s c s' H.
    apply buildBackground_resolved in H
      as (src & srcs & codes & before & after & _ & _ & -> & ->).
    split; [apply lookup_ge_None_2; simpl; lia|].
    eexists _, _, (trace s ++ [ECreateBrowser _; source_event _ src]), before, _.
    cbn [browsers doms trace ctx_browser ctx_dom].
    rewrite !lookup_fresh.
    split; [reflexivity|]. split; [reflexivity|]. split; [reflexivity|].
    split; [|reflexivity].
    unfold build_events. rewrite <- !app_assoc. reflexivity.
  - intros popupPath options s c s' H.
    apply buildPopup_resolved in H
      as (srcs & codes & before & after & _ & _ & -> & ->).
    split; [apply lookup_ge_None_2; simpl; lia|].
    eexists _, _, (trace s ++ [ECreateBrowser _; source_event _ _]), before, _.
    cbn [browsers doms trace ctx_browser ctx_dom].
    rewrite !lookup_fresh.
    split; [reflexivity|]. split; [reflexivity|]. split; [reflexivity|].
    split; [|reflexivity].
    unfold build_events. rewrite <- !app_assoc. reflexivity.
  - intros l s r s' Hopt H Haf k c Hc.
    destruct (fromManifest_on_options W manifestPath l s r s' Hopt H)
      as (_ & _ & Hkeys & _).
    assert (Hk : k = "background" ∨ k = "popup") by (apply Hkeys; eauto).
    destruct (fromManifest_options_after W manifestPath l s r s' k Hopt H Hk)
      as (Hready & _ & _ & Hflag).
    split.
    + destruct (Hready ltac:(eauto)) as (t & Ht & _ & Hf). rewrite Ht. now apply Hf.
    + now apply Hflag.
Qed.

(** C10. [fromManifest], given an options object, mutates it, and whatever the
    outcome of the call only as follows. Its fields other than [background]
    and [popup] are unchanged. Each of [background] and [popup] is unchanged
    or, when it was not an object, is a new object with no property but,
    possibly, [apiFake]. Every other object that existed keeps its properties,
    except that an [apiFake] may have received the value of [options.apiFake].
    When the call resolves: the field of a context that was built and was not
    an object has been overwritten by such a new object; a defined
    [options.apiFake] has been copied into the [apiFake] of the field of every
    context built; and the field of a context not built is unchanged. *)
Theorem fromManifest_mutates_options W manifestPath l s :
  options_object (heap s) l →
  let run := fromManifest W manifestPath (VRef l) s in
  let o := VRef l in
  let h := heap s in
  let h' := heap run.2 in
  (∀ key, key ≠ "background" → key ≠ "popup" → own_prop h' o key = own_prop h o key)
  ∧ (∀ k, k = "background" ∨ k = "popup" →
       own_prop h' o k = own_prop h o k
       ∨ (typeof h (own_prop h o k) ≠ TObject
          ∧ ∃ t, own_prop h' o k = VRef t
                 ∧ length h ≤ t
                 ∧ typeof h' (VRef t) = TObject
                 ∧ ∀ key, key ≠ "apiFake" → own_prop h' (VRef t) key = VUndefined))
  ∧ (∀ i key, i < length h → i ≠ l →
       own_prop h' (VRef i) key = own_prop h (VRef i) key
       ∨ (key = "apiFake"
          ∧ own_prop h o "apiFake" ≠ VUndefined
          ∧ own_prop h' (VRef i) key = own_prop h o "apiFake"))
  ∧ (∀ r, run.1 = Resolved r →
       ∀ k, k = "background" ∨ k = "popup" →
         (is_Some (r !! k) →
            (typeof h (own_prop h o k) ≠ TObject →
               ∃ t, own_prop h' o k = VRef t ∧ length h ≤ t)
            ∧ (own_prop h o "apiFake" ≠ VUndefined →
                 own_prop h' (own_prop h' o k) "apiFake" = own_prop h o "apiFake"))
         ∧ (r !! k = None → own_prop h' o k = own_prop h o k)).
Proof.
  intros Hopt run o h h'. subst o. pose proof Hopt as (Hl & _ & _).
  assert (Hframe : options_frame l h h').
  { apply (within_fromManifest W h l Hl manifestPath s). apply options_frame_refl. }
  destruct Hframe as [Hlen Hty Hplain Hfresh Hprops].
  split; [|split; [|split]].
  - intros key Hb Hp.
    destruct (Hprops l key Hl) as [E|[(-> & _ & E)|(_ & [->| ->] & _)]];
      try congruence.
  - intros k Hk.
    destruct (Hprops l k Hl) as [E|[(-> & _ & _)|(_ & _ & Hnot & t & Ht & Hlt)]].
    + left. exact E.
    + destruct Hk; discriminate.
    + right. split; [exact Hnot|]. exists t. repeat split; auto.
  - intros i key Hi Hne.
    destruct (Hprops i key Hi) as [E|[(-> & Haf & E)|(-> & _)]]; auto.
    contradiction.
  - intros r Hr k Hk.
    destruct (fromManifest W manifestPath (VRef l) s) as [res s'] eqn:Hrun.
    subst run h'. simpl in Hr. subst res. cbn [snd].
    destruct (fromManifest_options_after W manifestPath l s r s' k Hopt Hrun Hk)
      as (Hready & Hover & Hnone & _).
    split; [|exact Hnone].
    intros Hs. split; [now apply Hover|].
    intros Haf. destruct (Hready Hs) as (t & Ht & _ & Hf). rewrite Ht. now apply Hf.
Qed.

(** ** The theorems at work on the example extension *)

Lemma buildDom_instruments_then_evaluates_witness :
  let W := Example.world Example.manifest_all in
  let options := mkDomOptions None None in
  let scripts := Some ["file:///ext/a.js"; "/ext/b.js"] in
  let run := buildDom W options (Some blank_page) scripts initial_state in
  ∃ src srcs codes s1,
    source_of options (Some blank_page) = Some src
    ∧ scripts_of W options (Some blank_page) scripts = Some srcs
    ∧ JSDOM_construct src (opt_beforeParse options) initial_state = (Resolved 0, s1)
    ∧ Forall2 (instrumented_as W) srcs codes
    ∧ trace run.2 = trace s1 ++ instrument_events srcs
                      ++ [EEval 0 (concat_sources codes); ENextTick]
    ∧ doms run.2 = alter (fun dm => mkDom (dom_source_of dm) (window_browser dm) (parsed dm)
                                      (evaluated dm ++ [concat_sources codes])) 0 (doms s1).
Proof.
  intros W options scripts run.
  apply (buildDom_instruments_then_evaluates W options (Some blank_page) scripts
           initial_state 0 run.2).
  vm_compute. reflexivity.
Defined.

(** C5, as stated, fails: with [background: null] in the options (so not
    [false]) and a manifest whose [background] entry has a [page] field, the
    call resolves without a background context. *)
Lemma background_null_is_not_loaded :
  let run := fromManifest (Example.world Example.manifest_all) "/ext" (VRef 0)
               (Example.state_with_options options_background_null) in
  own_prop [options_background_null] (VRef 0) "background" = VNull
  ∧ VNull ≠ VBool false
  ∧ (field Example.manifest_all "background" ≫= fun b => field b "page")
    = Some (JStr "background.html")
  ∧ ∃ r, run.1 = Resolved r ∧ r !! "background" = None ∧ is_Some (r !! "popup").
Proof.
  split; [vm_compute; reflexivity|]. split; [discriminate|].
  split; [reflexivity|].
  eexists. split; [vm_compute; reflexivity|].
  split; [vm_compute; reflexivity | vm_compute; eauto].
Qed.

Lemma fromManifest_contexts_iff_witness :
  let r : gmap string Context :=
    <["popup" := mkContext 0 0 (window_document 0) true]> ∅ in
  let h := defaulted_heap [options_background_null] (VRef 0) in
  let o := defaulted [options_background_null] (VRef 0) in
  (is_Some (r !! "background")
   ↔ option_enabled (own_prop h o "background") = true
     ∧ declares_background Example.manifest_all = true)
  ∧ (is_Some (r !! "popup")
     ↔ option_enabled (own_prop h o "popup") = true
       ∧ declares_popup Example.manifest_all = true).
Proof.
  apply (fromManifest_contexts_iff (Example.world Example.manifest_all) "/ext" (VRef 0)
           (Example.state_with_options options_background_null) _
           (fromManifest (Example.world Example.manifest_all) "/ext" (VRef 0)
              (Example.state_with_options options_background_null)).2
           "<manifest>" Example.manifest_all).
  - simpl. lia.
  - vm_compute. reflexivity.
  - reflexivity.
  - reflexivity.
Defined.

Lemma fromManifest_resolves_against_manifestPath_witness :
  let W := Example.world Example.manifest_scripts in
  let run := fromManifest W "/ext" VUndefined initial_state in
  let r : gmap string Context :=
    <["popup" := mkContext 1 1 (window_document 1) true]>
      (<["background" := mkContext 0 0 (window_document 0) false]> ∅) in
  ∃ text manifest,
    fs_readFileSync W (path_resolve W ["/ext"; "manifest.json"]) = Some text
    ∧ JSON_parse W text = Some manifest
    ∧ EReadFile (path_resolve W ["/ext"; "manifest.json"]) ∈ trace run.2
    ∧ (∀ c, r !! "background" = Some c →
         ∃ mb dm,
           field manifest "background" = Some mb
           ∧ doms run.2 !! ctx_dom c = Some dm
           ∧ if ojson_truthy (field mb "page")
             then ∃ page,
                 field mb "page" = Some (JStr page)
                 ∧ dom_source_of dm = FromFile (path_resolve W ["/ext"; page])
             else ∃ items scripts,
                 field mb "scripts" ≫= iterated = Some items
                 ∧ mapM json_string items = Some scripts
                 ∧ dom_source_of dm = FromHtml blank_page
                 ∧ ∀ script, script ∈ scripts →
                     EInstrument (strip_file_scheme
                        (path_resolve W [path_join W ["/ext"; script]]))
                       ∈ trace run.2)
    ∧ (∀ c, r !! "popup" = Some c →
         ∃ p dm,
           declared_popup manifest = Some p
           ∧ doms run.2 !! ctx_dom c = Some dm
           ∧ dom_source_of dm = FromFile (path_resolve W ["/ext"; p])).
Proof.
  intros W run r.
  apply (fromManifest_resolves_against_manifestPath W "/ext" VUndefined initial_state).
  vm_compute. reflexivity.
Defined.

Lemma api_stubbing_witness :
  let W := Example.world Example.manifest_all in
  let s := Example.state_with_options options_apiFake in
  let run := fromManifest W "/ext" (VRef 0) s in
  (own_prop (heap run.2) (own_prop (heap run.2) (VRef 0) "background") "apiFake"
   = VBool true
   ∧ ∃ br, browsers run.2 !! 0 = Some br ∧ fakeApi_applied br = true)
  ∧ (own_prop (heap run.2) (own_prop (heap run.2) (VRef 0) "popup") "apiFake"
     = VBool true
     ∧ ∃ br, browsers run.2 !! 1 = Some br ∧ fakeApi_applied br = true).
Proof.
  intros W s run.
  destruct (api_stubbing W "/ext") as (_ & _ & Hcopy).
  assert (Hrun : fromManifest W "/ext" (VRef 0) s
                 = (Resolved (<["popup" := mkContext 1 1 (window_document 1) true]>
                      (<["background" := mkContext 0 0 (window_document 0) false]> ∅)),
                    run.2))
    by (vm_compute; reflexivity).
  assert (Hopt : options_object (heap s) 0) by (repeat split; vm_compute; lia).
  assert (Haf : own_prop (heap s) (VRef 0) "apiFake" ≠ VUndefined)
    by (vm_compute; discriminate).
  split.
  - apply (Hcopy 0 s _ run.2 Hopt Hrun Haf "background"
             (mkContext 0 0 (window_document 0) false)).
    vm_compute. reflexivity.
  - apply (Hcopy 0 s _ run.2 Hopt Hrun Haf "popup"
             (mkContext 1 1 (window_document 1) true)).
    vm_compute. reflexivity.
Defined.

Lemma fromManifest_mutates_options_witness :
  let W := Example.world Example.manifest_all in
  let s := Example.state_with_options options_apiFake in
  let run := fromManifest W "/ext" (VRef 0) s in
  let o := VRef 0 in
  let h := heap s in
  let h' := heap run.2 in
  (∀ key, key ≠ "background" → key ≠ "popup" → own_prop h' o key = own_prop h o key)
  ∧ (∀ k, k = "background" ∨ k = "popup" →
       own_prop h' o k = own_prop h o k
       ∨ (typeof h (own_prop h o k) ≠ TObject
          ∧ ∃ t, own_prop h' o k = VRef t
                 ∧ length h ≤ t
                 ∧ typeof h' (VRef t) = TObject
                 ∧ ∀ key, key ≠ "apiFake" → own_prop h' (VRef t) key = VUndefined))
  ∧ (∀ i key, i < length h → i ≠ 0 →
       own_prop h' (VRef i) key = own_prop h (VRef i) key
       ∨ (key = "apiFake"
          ∧ own_prop h o "apiFake" ≠ VUndefined
          ∧ own_prop h' (VRef i) key = own_prop h o "apiFake"))
  ∧ (∀ r, run.1 = Resolved r →
       ∀ k, k = "background" ∨ k = "popup" →
         (is_Some (r !! k) →
            (typeof h (own_prop h o k) ≠ TObject →
               ∃ t, own_prop h' o k = VRef t ∧ length h ≤ t)
            ∧ (own_prop h o "apiFake" ≠ VUndefined →
                 own_prop h' (own_prop h' o k) "apiFake" = own_prop h o "apiFake"))
         ∧ (r !! k = None → own_prop h' o k = own_prop h o k)).
Proof.
  apply (fromManifest_mutates_options (Example.world Example.manifest_all) "/ext" 0
           (Example.state_with_options options_apiFake)).
  repeat split; vm_compute; lia.
Defined.
